(** * weekly_update.py: reconciliation pipeline

    A shallow embedding of [src/weekly_update.py]: the choice of the latest
    tournament, the name handling of the three player-list sources, the
    identity resolver [get_player_id], the round aggregator
    [process_tournament_records], the skill snapshot builder
    [process_skills] and the per-player loop of [main].

    Conventions.
    - Python [str] is [string], one character for each code point: the
      development covers the texts whose code points are below 256, and
      [Py.is_space] and [Py.lower_char] are [str.isspace] and [str.lower] on
      these 256 code points.
    - A number cell ([float] or [int]) is named by a rational [Q], the
      number its decimal notation denotes; a missing cell ([None] / [NaN])
      is [None].  The comparisons with the thresholds
      and [int] are computed on the rational.  The float arithmetic of the
      libraries (the pandas mean and sum, Python's [round]) is not computed:
      it is a parameter, [Float.ops].
    - Library and service behaviour the script relies on (pandas, the
      PostgREST store, [datetime]) is modelled by small functions placed in
      the modules [Py], [Pd] and [Store], or taken as a parameter. *)

From stdpp Require Import base list strings gmap option sorting pretty.
From Stdlib Require Import QArith Qround ZArith Lia Ascii String.

Local Close Scope Q_scope.
Local Open Scope string_scope.
Local Open Scope list_scope.

(** ** Python [str] methods *)

Module Py.

(** [str.isspace] on one character: TAB, LF, VT, FF, CR, the four
    separators 0x1c-0x1f, the space, NEL (0x85) and the no-break space
    (0xa0). *)
Definition is_space (c : ascii) : bool :=
  let n := nat_of_ascii c in
  ((9 <=? n)%nat && (n <=? 13)%nat) || ((28 <=? n)%nat && (n <=? 32)%nat) ||
  (n =? 133)%nat || (n =? 160)%nat.

(** [str.lower] on one character: the letters A-Z and the capital letters
    0xc0-0xde, the multiplication sign 0xd7 apart, move up by 32. *)
Definition lower_char (c : ascii) : ascii :=
  let n := nat_of_ascii c in
  if ((65 <=? n)%nat && (n <=? 90)%nat) ||
     ((192 <=? n)%nat && (n <=? 222)%nat && negb (n =? 215)%nat)
  then ascii_of_nat (n + 32) else c.

(** [s.lower()] *)
Fixpoint lower (s : string) : string :=
  match s with
  | EmptyString => EmptyString
  | String c s' => String (lower_char c) (lower s')
  end.

(** [s.lstrip()] *)
Fixpoint lstrip (s : string) : string :=
  match s with
  | EmptyString => EmptyString
  | String c s' => if is_space c then lstrip s' else s
  end.

(** [s.rstrip()] *)
Fixpoint rstrip (s : string) : string :=
  match s with
  | EmptyString => EmptyString
  | String c s' =>
      match rstrip s' with
      | EmptyString => if is_space c then EmptyString else String c EmptyString
      | r => String c r
      end
  end.

(** [s.strip()] *)
Definition strip (s : string) : string := lstrip (rstrip s).

(** [s.split()]: the maximal runs of non-whitespace characters, in order. *)
Fixpoint split (s : string) : list string :=
  match s with
  | EmptyString => []
  | String c s' =>
      if is_space c then split s'
      else match s' with
           | EmptyString => [String c EmptyString]
           | String c' _ =>
               if is_space c' then String c EmptyString :: split s'
               else match split s' with
                    | t :: ts => String c t :: ts
                    | [] => [String c EmptyString]
                    end
           end
  end.

(** [c in s] for a one-character [c] *)
Fixpoint has_char (c : ascii) (s : string) : bool :=
  match s with
  | EmptyString => false
  | String d s' => if Ascii.eqb c d then true else has_char c s'
  end.

(** [s.split(c, 1)] when [c] occurs in [s]: the text before the first
    occurrence and the text after it; [s.split(c)[0]] is the first
    component in every case. *)
Fixpoint split_once (c : ascii) (s : string) : string * string :=
  match s with
  | EmptyString => (EmptyString, EmptyString)
  | String d s' =>
      if Ascii.eqb c d then (EmptyString, s')
      else let '(a, b) := split_once c s' in (String d a, b)
  end.

(** [s.replace(c, "")] for a one-character [c] *)
Fixpoint remove_char (c : ascii) (s : string) : string :=
  match s with
  | EmptyString => EmptyString
  | String d s' =>
      if Ascii.eqb c d then remove_char c s' else String d (remove_char c s')
  end.

(** [s.startswith(p)] *)
Fixpoint startswith (p s : string) : bool :=
  match p, s with
  | EmptyString, _ => true
  | String _ _, EmptyString => false
  | String a p', String b s' => Ascii.eqb a b && startswith p' s'
  end.

(** [p in s] *)
Fixpoint contains (p s : string) : bool :=
  startswith p s ||
  match s with
  | EmptyString => false
  | String _ s' => contains p s'
  end.

(** Exceptions the modelled code can raise. *)
Inductive exn :=
  | IndexError
  | TypeError
  | AttributeError
  | StoreError (msg : string).

(** The outcome of a call that may raise. *)
Inductive result (A : Type) :=
  | Ret (a : A)
  | Raise (e : exn).
Arguments Ret {A} a.
Arguments Raise {A} e.

End Py.

(** ** Player-list sources (lines 77-114 and 250-292) *)

(** [NAME_ALIASES] *)
Definition NAME_ALIASES : gmap string string :=
  list_to_map
    [ ("Nicolas Echavarria", "Nico Echavarria");
      ("Matthias Schmid", "Matti Schmid");
      ("Erik Van Rooyen", "Erik van Rooyen") ].

(** [NAME_ALIASES.get(name, name)] *)
Definition alias (name : string) : string :=
  default name (NAME_ALIASES !! name).

Definition comma : ascii := ","%char.

(** The body of the loop of [fetch_field_from_past_results], lines 98-103:
    a display name with a comma is split at the first comma and its halves
    swapped. *)
Definition normalize_name (name : string) : string :=
  if Py.has_char comma name then
    let '(last, first) := Py.split_once comma name in
    Py.strip first +:+ " " +:+ Py.strip last
  else Py.strip name.

(** One leaderboard row as the page script of lines 83-91 returns it.  The
    script sets the key [player_name] in every row, so the default of
    [row.get("player_name", "")] is never used; [None] is a row whose name
    is missing on the page, which arrives as a [null]. *)
Record lb_row := { player_name : option string }.

(** The leaderboard row of a name. *)
Definition named (n : string) : lb_row := {| player_name := Some n |}.

(** The loop of lines 96-103: the test ["," in name] of line 99 raises
    [TypeError] on a [null] name. *)
Fixpoint field_names (rows : list lb_row) : Py.result (list string) :=
  match rows with
  | [] => Py.Ret []
  | row :: rest =>
      match player_name row with
      | None => Py.Raise Py.TypeError
      | Some name =>
          match field_names rest with
          | Py.Ret players => Py.Ret (normalize_name name :: players)
          | Py.Raise e => Py.Raise e
          end
      end
  end.

(** The player list of [fetch_field_from_past_results]: [None] when the page
    has no data or an empty leaderboard. *)
Definition fetch_field_from_past_results (data : option (list lb_row))
  : Py.result (option (list string)) :=
  match data with
  | None | Some [] => Py.Ret None
  | Some rows =>
      match field_names rows with
      | Py.Ret players => Py.Ret (Some players)
      | Py.Raise e => Py.Raise e
      end
  end.

(** [load_players_from_field_file] over the lines of the file.  The index
    counts every line, blank ones included. *)
Fixpoint field_file_lines (i : nat) (lines : list string) : list string :=
  match lines with
  | [] => []
  | line :: rest =>
      let line := Py.strip line in
      if String.eqb line "" then field_file_lines (S i) rest
      else
        let name := Py.strip (fst (Py.split_once comma line)) in
        if Nat.eqb i 0 &&
           (String.eqb (Py.lower name) "player" || String.eqb (Py.lower name) "name")
        then field_file_lines (S i) rest
        else if String.eqb name "" then field_file_lines (S i) rest
        else alias name :: field_file_lines (S i) rest
  end.

Definition load_players_from_field_file (lines : list string) : list string :=
  field_file_lines 0 lines.

(** One row of the [tournament_players] query: the joined [pga_players]
    object, when it is a dict, with its [name], when it has one. *)
Record tp_row := { pga_players : option (option string) }.

Definition tp_name (row : tp_row) : option string :=
  match pga_players row with
  | Some (Some n) => if String.eqb n "" then None else Some n
  | _ => None
  end.

(** The response [r] of the store client to the query of lines 278-283.
    Whether it has an attribute [error] depends on the client library, which
    is outside the repository: [error] is [None] for a response without the
    attribute and the truth value of the attribute otherwise; [data] is
    [r.data or []]. *)
Module Response.
Record t := { error : option bool; data : list tp_row }.
End Response.

(** [load_players_from_tournament]: reading [r.error] on line 284 raises
    [AttributeError] when the response has no such attribute. *)
Definition load_players_from_tournament (r : Response.t)
  : Py.result (option (list string)) :=
  match Response.error r with
  | None => Py.Raise Py.AttributeError
  | Some true => Py.Ret None
  | Some false =>
      match omap (fun row => alias <$> tp_name row) (Response.data r) with
      | [] => Py.Ret None
      | players => Py.Ret (Some players)
      end
  end.

(** ** Identity resolver (lines 117-126) *)

Record player := { id : string; name : string }.

Module Store.

(** Modelled from the spec: the query engine of the store is outside the
    repository.  [.eq("name", n)] gives the rows whose name is [n] (section
    4.2, step 1), in table order. *)
Definition select_eq_name (registry : list player) (n : string) : list player :=
  filter (fun p => name p = n) registry.

(** Modelled from the spec: [.ilike("name", "%" + key + "%")] gives the rows
    whose name contains [key] as a substring, letter case ignored (section
    4.2, step 2), in table order. *)
Definition select_ilike_name (registry : list player) (key : string) : list player :=
  filter (fun p => Py.contains (Py.lower key) (Py.lower (name p)) = true) registry.

End Store.

(** The [for] loop of lines 123-125. *)
Fixpoint first_surname_match (last : string) (cands : list player)
  : Py.result (option string) :=
  match cands with
  | [] => Py.Ret None
  | p :: rest =>
      match list.last (Py.split (name p)) with
      | None => Py.Raise Py.IndexError
      | Some plast =>
          if String.eqb (Py.lower last) (Py.lower plast) then Py.Ret (Some (id p))
          else first_surname_match last rest
      end
  end.

(** [get_player_id]: an exact match wins; otherwise the surname key is the
    last token of the name, and taking it from a name without tokens raises
    [IndexError]. *)
Definition get_player_id (registry : list player) (n : string)
  : Py.result (option string) :=
  match Store.select_eq_name registry n with
  | p :: _ => Py.Ret (Some (id p))
  | [] =>
      match list.last (Py.split n) with
      | None => Py.Raise Py.IndexError
      | Some last =>
          first_surname_match last (Store.select_ilike_name registry last)
      end
  end.

(** ** Numbers *)

(** [x <= y] and [x < y] on floats *)
Definition Qleb (x y : Q) : bool := Qle_bool x y.
Definition Qltb (x y : Q) : bool := negb (Qle_bool y x).

(** [int(x)]: truncation toward zero *)
Definition py_int (x : Q) : Z := Z.quot (Qnum x) (Z.pos (Qden x)).

(** The float arithmetic of the libraries: the pandas ["mean"] and ["sum"]
    aggregations on the non-null cells of a group, in frame order, and
    Python's [round(x, 3)].  They compute in binary floating point (or, for
    a column of integers, in 64-bit integers); what they return is not
    derived here but taken as given. *)
Module Float.
Record ops := {
  mean : list Q -> Q;
  sum : list Q -> Q;
  round3 : Q -> Q
}.
End Float.

(** ** Exact arithmetic

    The same three operations on exact numbers.  They are used in the
    examples only, on numbers on which the float operations are exact or
    give the same decimal. *)

(** Rounding to the nearest integer, ties to the even one. *)
Definition round_half_even (x : Q) : Z :=
  let f := Qfloor x in
  match Qcompare (x - inject_Z f) (1 # 2) with
  | Lt => f
  | Gt => (f + 1)%Z
  | Eq => if Z.even f then f else (f + 1)%Z
  end.

(** Rounding to three fractional digits, ties to the even one. *)
Definition round3 (x : Q) : Q :=
  Qred (inject_Z (round_half_even (x * 1000)) / 1000).

Definition qsum (xs : list Q) : Q := foldr Qplus 0%Q xs.

(** The sum divided by the number of values, in lowest terms. *)
Definition exact_mean (xs : list Q) : Q :=
  Qred (qsum xs / inject_Z (Z.of_nat (List.length xs))).

Definition exact_arithmetic : Float.ops :=
  {| Float.mean := exact_mean;
     Float.sum := fun xs => Qred (qsum xs);
     Float.round3 := round3 |}.

(** ** pandas operations used by the aggregator *)

Module Pd.

(** The non-null cells of a column, in row order. *)
Definition dropna {A} (col : list (option A)) : list A := omap (fun x => x) col.

(** The ["mean"] aggregation: null cells are skipped, a group without a
    value gives a null. *)
Definition mean (fl : Float.ops) (col : list (option Q)) : option Q :=
  match dropna col with
  | [] => None
  | xs => Some (Float.mean fl xs)
  end.

(** The ["sum"] aggregation: null cells are skipped; the sum of no value is
    not null. *)
Definition sum (fl : Float.ops) (col : list (option Q)) : option Q :=
  Some (Float.sum fl (dropna col)).

(** The ["first"] aggregation: the first non-null cell of the group. *)
Definition first {A} (col : list (option A)) : option A := head (dropna col).

(** The order of the group keys: pairs of strings compared as tuples, the
    strings character by character. *)
Definition key_leb (k1 k2 : string * string) : bool :=
  if String.eqb (fst k1) (fst k2) then String.leb (snd k1) (snd k2)
  else String.leb (fst k1) (fst k2).

Definition key_le (k1 k2 : string * string) : Prop := key_leb k1 k2 = true.

#[global] Instance key_le_dec k1 k2 : Decision (key_le k1 k2) :=
  bool_eq_dec (key_leb k1 k2) true.

(** The group keys of [groupby]: rows with a null key are left out, the
    distinct keys come in ascending order. *)
Definition group_keys {R} (key : R -> option (string * string)) (rows : list R)
  : list (string * string) :=
  merge_sort key_le (remove_dups (omap key rows)).

(** The rows of one group, in frame order. *)
Definition group_rows {R} (key : R -> option (string * string))
    (k : string * string) (rows : list R) : list R :=
  filter (fun r => key r = Some k) rows.

(** [df.groupby([c1, c2])]: each key with its rows. *)
Definition groupby {R} (key : R -> option (string * string)) (rows : list R)
  : list ((string * string) * list R) :=
  (fun k => (k, group_rows key k rows)) <$> group_keys key rows.

End Pd.

(** ** Round aggregator (lines 164-208) *)

(** One scraped round.  Each of the eleven keys the aggregation reads is
    present; a JavaScript [null] is [None]. *)
Module Row.
Record t := {
  event_name : option string;
  date : option string;
  course_name : option string;
  fin_numeric : option Q;
  fin_text : option string;
  total : option Q;
  ott : option Q;
  app : option Q;
  arg : option Q;
  putt : option Q;
  round_score : option Q
}.
End Row.

(** One row of the aggregated frame [agg]. *)
Module Agg.
Record t := {
  event_name : string;
  date : string;
  course_name : option string;
  fin_numeric : option Q;
  fin_text : option string;
  total : option Q;
  ott : option Q;
  app : option Q;
  arg : option Q;
  putt : option Q;
  round_score : option Q
}.
End Agg.

(** One output record, a row of [historical_tournament_results]. *)
Module Rec.
Record t := {
  pga_player_id : string;
  tournament_name : string;
  course_name : string;
  tournament_date : string;
  finish_position : option Z;
  is_made_cut : bool;
  total_score : option Z;
  strokes_gained_total : option Q;
  strokes_gained_putting : option Q;
  strokes_gained_approach : option Q;
  strokes_gained_around_green : option Q;
  strokes_gained_off_tee : option Q
}.
End Rec.

(** The lambda of lines 171-172: [None if x is None or x <= -9000 else x]. *)
Definition sentinel (x : option Q) : option Q :=
  match x with
  | None => None
  | Some q => if Qleb q (-9000) then None else Some q
  end.

(** The loop of lines 168-172 over the five strokes-gained columns. *)
Definition filter_sentinels (r : Row.t) : Row.t :=
  {| Row.event_name := Row.event_name r;
     Row.date := Row.date r;
     Row.course_name := Row.course_name r;
     Row.fin_numeric := Row.fin_numeric r;
     Row.fin_text := Row.fin_text r;
     Row.total := sentinel (Row.total r);
     Row.ott := sentinel (Row.ott r);
     Row.app := sentinel (Row.app r);
     Row.arg := sentinel (Row.arg r);
     Row.putt := sentinel (Row.putt r);
     Row.round_score := Row.round_score r |}.

Definition row_key (r : Row.t) : option (string * string) :=
  match Row.event_name r, Row.date r with
  | Some e, Some d => Some (e, d)
  | _, _ => None
  end.

(** The [.agg({...})] of lines 174-184 on one group. *)
Definition agg_group (fl : Float.ops) (g : (string * string) * list Row.t) : Agg.t :=
  let '((e, d), rows) := g in
  {| Agg.event_name := e;
     Agg.date := d;
     Agg.course_name := Pd.first (Row.course_name <$> rows);
     Agg.fin_numeric := Pd.first (Row.fin_numeric <$> rows);
     Agg.fin_text := Pd.first (Row.fin_text <$> rows);
     Agg.total := Pd.mean fl (Row.total <$> rows);
     Agg.ott := Pd.mean fl (Row.ott <$> rows);
     Agg.app := Pd.mean fl (Row.app <$> rows);
     Agg.arg := Pd.mean fl (Row.arg <$> rows);
     Agg.putt := Pd.mean fl (Row.putt <$> rows);
     Agg.round_score := Pd.sum fl (Row.round_score <$> rows) |}.

(** [row["fin_text"] not in ["CUT", "WD", "DQ", "MDF"]] *)
Definition is_made_cut_of (fin_text : option string) : bool :=
  match fin_text with
  | Some t => negb (existsb (String.eqb t) ["CUT"; "WD"; "DQ"; "MDF"])
  | None => true
  end.

(** [int(x) if pd.notna(x) and x < 900 else None] *)
Definition finish_position_of (fin_numeric : option Q) : option Z :=
  match fin_numeric with
  | Some x => if Qltb x 900 then Some (py_int x) else None
  | None => None
  end.

(** [int(x) if pd.notna(x) else None] *)
Definition int_or_none (x : option Q) : option Z :=
  match x with
  | Some q => Some (py_int q)
  | None => None
  end.

(** [round(float(x), 3) if pd.notna(x) else None] *)
Definition round3_or_none (fl : Float.ops) (x : option Q) : option Q :=
  match x with
  | Some q => Some (Float.round3 fl q)
  | None => None
  end.

Section Aggregator.

(** [datetime.strptime(s, "%b %d, %Y").strftime("%Y-%m-%d")], [None] when
    [strptime] raises. *)
Variable to_iso_date : string -> option string.

(** The float arithmetic of pandas and of [round]. *)
Variable fl : Float.ops.

(** The body of the loop of lines 187-207; [None] is the [continue]. *)
Definition record_of (pga_id : string) (row : Agg.t) : option Rec.t :=
  match to_iso_date (Agg.date row) with
  | None => None
  | Some tournament_date =>
      Some {|
        Rec.pga_player_id := pga_id;
        Rec.tournament_name := Agg.event_name row;
        Rec.course_name := default "" (Agg.course_name row);
        Rec.tournament_date := tournament_date;
        Rec.finish_position := finish_position_of (Agg.fin_numeric row);
        Rec.is_made_cut := is_made_cut_of (Agg.fin_text row);
        Rec.total_score := int_or_none (Agg.round_score row);
        Rec.strokes_gained_total := round3_or_none fl (Agg.total row);
        Rec.strokes_gained_putting := round3_or_none fl (Agg.putt row);
        Rec.strokes_gained_approach := round3_or_none fl (Agg.app row);
        Rec.strokes_gained_around_green := round3_or_none fl (Agg.arg row);
        Rec.strokes_gained_off_tee := round3_or_none fl (Agg.ott row)
      |}
  end.

Definition process_tournament_records (new_data : list Row.t) (pga_id : string)
  : list Rec.t :=
  match new_data with
  | [] => []
  | _ =>
      let df := filter_sentinels <$> new_data in
      let agg := agg_group fl <$> Pd.groupby row_key df in
      omap (record_of pga_id) agg
  end.

End Aggregator.

(** ** A reading of the date format, used in the examples

    [strptime] with ["%b %d, %Y"] matches, letter case ignored, a month
    abbreviation, whitespace, a day of one or two digits, a comma,
    whitespace, a year of four digits and the end of the string, and then
    rejects a day the month does not have and the year 0. *)

Module Datetime.

Definition is_digit (c : ascii) : bool :=
  let n := nat_of_ascii c in (48 <=? n)%nat && (n <=? 57)%nat.

Definition digit (c : ascii) : Z := Z.of_nat (nat_of_ascii c) - 48.

Definition months : list string :=
  ["jan"; "feb"; "mar"; "apr"; "may"; "jun";
   "jul"; "aug"; "sep"; "oct"; "nov"; "dec"].

Fixpoint index_of (x : string) (l : list string) (i : Z) : option Z :=
  match l with
  | [] => None
  | y :: l' => if String.eqb x y then Some i else index_of x l' (i + 1)
  end.

Definition is_leap (y : Z) : bool :=
  ((y mod 4 =? 0) && negb (y mod 100 =? 0))%Z || (y mod 400 =? 0)%Z.

Definition days_in_month (y m : Z) : Z :=
  if (m =? 2)%Z then (if is_leap y then 29 else 28)
  else if ((m =? 4) || (m =? 6) || (m =? 9) || (m =? 11))%Z then 30
  else 31.

(** One or more whitespace characters, then the rest. *)
Definition spaces1 (s : string) : option string :=
  match s with
  | String c s' => if Py.is_space c then Some (Py.lstrip s') else None
  | EmptyString => None
  end.

(** The day between the whitespace and the comma: [1]-[9], [01]-[09],
    [10]-[31]. *)
Definition day_of (s : string) : option Z :=
  match s with
  | String a EmptyString =>
      if is_digit a && negb (digit a =? 0)%Z then Some (digit a) else None
  | String a (String b EmptyString) =>
      if is_digit a && is_digit b then
        let d := (10 * digit a + digit b)%Z in
        if (1 <=? d)%Z && (d <=? 31)%Z then Some d else None
      else None
  | _ => None
  end.

Definition year_of (s : string) : option Z :=
  match s with
  | String a (String b (String c (String d EmptyString))) =>
      if is_digit a && is_digit b && is_digit c && is_digit d
      then Some (1000 * digit a + 100 * digit b + 10 * digit c + digit d)%Z
      else None
  | _ => None
  end.

(** [datetime.strptime(s, "%b %d, %Y")] as (year, month, day). *)
Definition strptime_b_d_Y (s : string) : option (Z * Z * Z) :=
  match s with
  | String a (String b (String c rest)) =>
      m ← index_of (Py.lower (String a (String b (String c EmptyString)))) months 1;
      rest ← spaces1 rest;
      if Py.has_char comma rest then
        let '(ds, rest) := Py.split_once comma rest in
        d ← day_of ds;
        ys ← spaces1 rest;
        y ← year_of ys;
        if (1 <=? y)%Z && (d <=? days_in_month y m)%Z then Some (y, m, d) else None
      else None
  | _ => None
  end.

Definition digit_char (n : Z) : ascii := ascii_of_nat (Z.to_nat (48 + n mod 10)).

Definition pad2 (n : Z) : string :=
  String (digit_char (n / 10)) (String (digit_char n) EmptyString).

(** [dt.strftime("%Y-%m-%d")]; the C library prints a year below 1000
    without leading zeros. *)
Definition strftime_Y_m_d (dt : Z * Z * Z) : string :=
  let '(y, m, d) := dt in pretty y +:+ "-" +:+ pad2 m +:+ "-" +:+ pad2 d.

(** Lines 189-190. *)
Definition to_iso_date (s : string) : option string :=
  strftime_Y_m_d <$> strptime_b_d_Y s.

End Datetime.

(** ** Skill snapshot builder (lines 211-247) *)

(** A value of the scraped page data. *)
Inductive json :=
  | JNull
  | JBool (b : bool)
  | JNum (x : Q)
  | JStr (s : string).

(** A Python float: a finite number, an infinity or a NaN. *)
Inductive pyfloat :=
  | Finite (x : Q)
  | Inf (negative : bool)
  | NaN.

(** [round(f, 3)]: an infinity and a NaN are returned as they are. *)
Definition round3f (fl : Float.ops) (f : pyfloat) : pyfloat :=
  match f with
  | Finite x => Finite (Float.round3 fl x)
  | _ => f
  end.

(** One record of [break_skills]. *)
Module Skill.
Record t := { bin : string; perc : json; val : json }.
End Skill.

(** The [reload_data] object; a key the page leaves out reads as [JNull]
    or as the empty list. *)
Module Reload.
Record t := { dg_id : json; break_skills : list Skill.t }.
End Reload.

(** The dict [process_skills] returns. *)
Module Snap.
Record t := {
  dg_id : json;
  driving_overall : json;
  driving_distance : json;
  driving_accuracy : json;
  approach_overall : json;
  approach_50_100 : json;
  approach_100_150 : json;
  approach_150_200 : json;
  approach_200_plus : json;
  around_green_overall : json;
  around_green_fairway : json;
  around_green_rough : json;
  around_green_bunker : json;
  putting_overall : json;
  putting_2_5_feet : json;
  putting_5_30 : json;
  putting_30_plus : json;
  sg_driving : option pyfloat;
  sg_approach : option pyfloat;
  sg_around_green : option pyfloat;
  sg_putting : option pyfloat;
  skills_updated_at : string
}.
End Snap.

(** [{s["bin"]: f(s) for s in skills}]: a later record replaces an earlier
    one of the same bin. *)
Definition dict_of (f : Skill.t -> json) (skills : list Skill.t) : gmap string json :=
  foldl (fun m s => <[Skill.bin s := f s]> m) ∅ skills.

(** [d.get(k)] *)
Definition get (d : gmap string json) (k : string) : json :=
  default JNull (d !! k).

Definition plus : ascii := "+"%char.

Section Skills.

(** [float(s)] on a string, [None] when it raises [ValueError]. *)
Variable float_of_str : string -> option pyfloat.

(** The float arithmetic of [round]. *)
Variable fl : Float.ops.

(** The inner function [sg] of lines 218-222.  [str] of a number prints it
    so that [float] reads the same number back, a plus sign occurring in an
    exponent only; [str(None)], [str(True)] and [str(False)] are no float
    literals. *)
Definition sg (x : json) : option pyfloat :=
  match x with
  | JStr s => round3f fl <$> float_of_str (Py.remove_char plus s)
  | JNum q => Some (round3f fl (Finite q))
  | JNull | JBool _ => None
  end.

(** [process_skills]; [now] is [datetime.utcnow().isoformat()]. *)
Definition process_skills (reload_data : option Reload.t) (now : string)
  : option Snap.t :=
  match reload_data with
  | None => None
  | Some rd =>
      match Reload.break_skills rd with
      | [] => None
      | skills =>
          let m := dict_of Skill.perc skills in
          let v := dict_of Skill.val skills in
          Some {|
            Snap.dg_id := Reload.dg_id rd;
            Snap.driving_overall := get m "driving";
            Snap.driving_distance := get m "ott_1";
            Snap.driving_accuracy := get m "ott_2";
            Snap.approach_overall := get m "approach";
            Snap.approach_50_100 := get m "app_1";
            Snap.approach_100_150 := get m "app_2";
            Snap.approach_150_200 := get m "app_3";
            Snap.approach_200_plus := get m "app_4";
            Snap.around_green_overall := get m "around";
            Snap.around_green_fairway := get m "arg_1";
            Snap.around_green_rough := get m "arg_2";
            Snap.around_green_bunker := get m "arg_3";
            Snap.putting_overall := get m "putting";
            Snap.putting_2_5_feet := get m "putt_1";
            Snap.putting_5_30 := get m "putt_2";
            Snap.putting_30_plus := get m "putt_3";
            Snap.sg_driving := sg (get v "driving");
            Snap.sg_approach := sg (get v "approach");
            Snap.sg_around_green := sg (get v "around");
            Snap.sg_putting := sg (get v "putting");
            Snap.skills_updated_at := now
          |}
      end
  end.

End Skills.

(** A reading of [float] on plain decimal literals: surrounding whitespace,
    an optional sign, digits with an optional fraction. *)
Module Decimal.

Fixpoint digits (s : string) (acc : Z) : option (Z * string) :=
  match s with
  | String c s' =>
      if Datetime.is_digit c then digits s' (10 * acc + Datetime.digit c)%Z
      else Some (acc, s)
  | EmptyString => Some (acc, s)
  end.

Fixpoint all_digits (s : string) : bool :=
  match s with
  | EmptyString => true
  | String c s' => Datetime.is_digit c && all_digits s'
  end.

Definition unsigned (s : string) : option Q :=
  let '(ip, fp) :=
    if Py.has_char "."%char s then Py.split_once "."%char s else (s, EmptyString) in
  if all_digits ip && all_digits fp && negb (String.eqb (ip +:+ fp) "") then
    match digits (ip +:+ fp) 0 with
    | Some (n, _) => Some (Qred (inject_Z n / inject_Z (10 ^ Z.of_nat (String.length fp))))
    | None => None
    end
  else None.

Definition float_of_str (s : string) : option pyfloat :=
  match Py.strip s with
  | String "+" r => Finite <$> unsigned r
  | String "-" r => (fun x => Finite (Qred (- x))) <$> unsigned r
  | r => Finite <$> unsigned r
  end.

End Decimal.

(** ** The store tables the loop writes *)

Module Db.

(** The upsert key of [historical_tournament_results]:
    [pga_player_id,tournament_name,tournament_date]. *)
Definition key_of (r : Rec.t) : string * string * string :=
  (Rec.pga_player_id r, Rec.tournament_name r, Rec.tournament_date r).

(** The two tables: tournament results under their upsert key, and the
    skill columns of [pga_players] under the player id. *)
Record t := {
  results : gmap (string * string * string) Rec.t;
  profiles : gmap string Snap.t
}.

(** Modelled from the spec: the store service is outside the repository;
    section 4.5 says of the keyed upsert that a write with the same key
    replaces the prior stored values in full.  The rows of a batch are
    written in order. *)
Definition upsert_keyed (records : list Rec.t)
    (tbl : gmap (string * string * string) Rec.t)
  : gmap (string * string * string) Rec.t :=
  foldl (fun m r => <[key_of r := r]> m) tbl records.

(** Modelled from the spec: [update(skills).eq("id", pid)] replaces the
    snapshot stored for the player (section 4.5, step 4). *)
Definition update_skills (pid : string) (skills : Snap.t)
    (tbl : gmap string Snap.t) : gmap string Snap.t :=
  <[pid := skills]> tbl.

End Db.

(** ** The player loop of [main] (lines 356-411) *)

(** What [scrape_player] returns for a player with data. *)
Record scraped := { new_data : list Row.t; reload_data : option Reload.t }.

(** A write sent to the store, with the message of the exception it raised,
    if any. *)
Inductive event :=
  | KeyedUpsert (records : list Rec.t) (err : option string)
  | PlainUpsert (records : list Rec.t) (err : option string)
  | SkillUpdate (pid : string) (skills : Snap.t) (err : option string).

(** Everything outside the script that one run depends on.  Iterations are
    numbered from 0; each sends at most one write of each kind. *)
Record env := {
  registry : list player;
  scrape_player : string -> option scraped;
  to_iso_date : string -> option string;
  float_of_str : string -> option pyfloat;
  float_ops : Float.ops;
  (** the clock read by [process_skills] in iteration [i] *)
  utcnow : nat -> string;
  (** the exception the keyed upsert of iteration [i] raises, if any *)
  keyed_error : nat -> option string;
  (** the exception the upsert without [on_conflict] raises, if any *)
  plain_error : nat -> option string;
  (** what the upsert without [on_conflict] does to the table; it depends on
      the primary key of the table, which the script does not state *)
  plain_write : list Rec.t -> gmap (string * string * string) Rec.t ->
                gmap (string * string * string) Rec.t;
  (** the exception the skills update raises, if any *)
  update_error : nat -> option string
}.

(** The state of a run: the store, the two counters and the writes sent. *)
Record run := {
  db : Db.t;
  tourn_ok : nat;
  skills_ok : nat;
  log : list event
}.

Definition set_results (f : gmap (string * string * string) Rec.t ->
                            gmap (string * string * string) Rec.t) (s : run) : run :=
  {| db := {| Db.results := f (Db.results (db s)); Db.profiles := Db.profiles (db s) |};
     tourn_ok := tourn_ok s; skills_ok := skills_ok s; log := log s |}.

Definition set_profiles (f : gmap string Snap.t -> gmap string Snap.t) (s : run) : run :=
  {| db := {| Db.results := Db.results (db s); Db.profiles := f (Db.profiles (db s)) |};
     tourn_ok := tourn_ok s; skills_ok := skills_ok s; log := log s |}.

Definition incr_tourn_ok (s : run) : run :=
  {| db := db s; tourn_ok := S (tourn_ok s); skills_ok := skills_ok s; log := log s |}.

Definition incr_skills_ok (s : run) : run :=
  {| db := db s; tourn_ok := tourn_ok s; skills_ok := S (skills_ok s); log := log s |}.

Definition emit (e : event) (s : run) : run :=
  {| db := db s; tourn_ok := tourn_ok s; skills_ok := skills_ok s; log := log s ++ [e] |}.

(** Lines 375-385.  The result is the state reached and the exception that
    leaves the block, if any. *)
Definition write_records (E : env) (i : nat) (records : list Rec.t) (s : run)
  : run * option Py.exn :=
  match records with
  | [] => (s, None)
  | _ =>
      match keyed_error E i with
      | None =>
          (incr_tourn_ok
             (set_results (Db.upsert_keyed records)
                (emit (KeyedUpsert records None) s)), None)
      | Some msg =>
          let s1 := emit (KeyedUpsert records (Some msg)) s in
          if Py.contains "on_conflict" (Py.lower msg) then
            match plain_error E i with
            | None =>
                (incr_tourn_ok
                   (set_results (plain_write E records)
                      (emit (PlainUpsert records None) s1)), None)
            | Some msg2 =>
                (emit (PlainUpsert records (Some msg2)) s1,
                 Some (Py.StoreError msg2))
            end
          else (incr_tourn_ok s1, None)
      end
  end.

(** Lines 388-391. *)
Definition write_skills (E : env) (i : nat) (pid : string)
    (skills : option Snap.t) (s : run) : run * option Py.exn :=
  match skills with
  | None => (s, None)
  | Some sk =>
      match update_error E i with
      | None =>
          (incr_skills_ok
             (set_profiles (Db.update_skills pid sk)
                (emit (SkillUpdate pid sk None) s)), None)
      | Some msg =>
          (emit (SkillUpdate pid sk (Some msg)) s, Some (Py.StoreError msg))
      end
  end.

(** One iteration of the loop, lines 361-400. *)
Definition iteration (E : env) (i : nat) (n : string) (s : run)
  : run * option Py.exn :=
  match get_player_id (registry E) n with
  | Py.Raise e => (s, Some e)
  | Py.Ret None => (s, None)
  | Py.Ret (Some pid) =>
      if String.eqb pid "" then (s, None)
      else
        match scrape_player E n with
        | None => (s, None)
        | Some data =>
            let records :=
              process_tournament_records (to_iso_date E) (float_ops E)
                (new_data data) pid in
            match write_records E i records s with
            | (s1, Some e) => (s1, Some e)
            | (s1, None) =>
                let skills :=
                  process_skills (float_of_str E) (float_ops E) (reload_data data)
                    (utcnow E i) in
                write_skills E i pid skills s1
            end
        end
  end.

(** The [for] loop from iteration [i] on: an exception ends it. *)
Fixpoint player_loop (E : env) (i : nat) (players : list string) (s : run)
  : run * option Py.exn :=
  match players with
  | [] => (s, None)
  | n :: rest =>
      match iteration E i n s with
      | (s1, Some e) => (s1, Some e)
      | (s1, None) => player_loop E (S i) rest s1
      end
  end.

(** How a run ends: the summary of lines 407-411 with the two counters, or
    an exception leaving [main]. *)
Inductive outcome :=
  | Summary (tournament_records_updated skill_profiles_refreshed : nat)
  | Uncaught (e : Py.exn).

(** [main] from line 356 on, for a given player list and store. *)
Definition main (E : env) (players : list string) (store : Db.t)
  : Db.t * list event * outcome :=
  let s0 := {| db := store; tourn_ok := 0; skills_ok := 0; log := [] |} in
  match player_loop E 0 players s0 with
  | (s, None) => (db s, log s, Summary (tourn_ok s) (skills_ok s))
  | (s, Some e) => (db s, log s, Uncaught e)
  end.

(** * Vocabulary of the properties and sample data *)

(** A string of whitespace only. *)
Definition blank (s : string) : Prop := Py.lstrip s = "".

(** A string with neither leading nor trailing whitespace. *)
Definition trimmed (s : string) : Prop := Py.lstrip s = s /\ Py.rstrip s = s.

(** The first comma-separated field of a line of the field file, trimmed. *)
Definition first_field (line : string) : string :=
  Py.strip (Py.split_once comma (Py.strip line)).1.

(** One of the two header words, letter case ignored. *)
Definition header_word (name : string) : bool :=
  String.eqb (Py.lower name) "player" || String.eqb (Py.lower name) "name".

(** The name line [i] of the field file gives, before any aliasing: its
    first field, unless that is empty or, on the first line, a header
    word. *)
Definition raw_name (i : nat) (line : string) : option string :=
  let name := first_field line in
  if String.eqb name "" || (Nat.eqb i 0 && header_word name) then None
  else Some name.

(** The names the lines of the field file give, before any aliasing; [i] is
    the index of the first of them. *)
Fixpoint raw_names_from (i : nat) (lines : list string) : list string :=
  match lines with
  | [] => []
  | line :: rest => option_list (raw_name i line) ++ raw_names_from (S i) rest
  end.

(** A response with the attribute [error] unset and the given rows. *)
Definition response_of (rows : list tp_row) : Response.t :=
  {| Response.error := Some false; Response.data := rows |}.

(** The last whitespace-delimited token of a name. *)
Definition last_token (s : string) : option string := list.last (Py.split s).

(** [key] occurs in [s], letter case ignored. *)
Definition contains_ci (key s : string) : bool :=
  Py.contains (Py.lower key) (Py.lower s).

(** The last token of the record's name is [key], letter case ignored. *)
Definition surname_is (key : string) (p : player) : bool :=
  match last_token (name p) with
  | Some t => String.eqb (Py.lower key) (Py.lower t)
  | None => false
  end.

(** Three registry rows, two of them with the surname Woods. *)
Definition registry_example : list player :=
  [ {| id := "p1"; name := "Tiger Woods" |};
    {| id := "p2"; name := "Woodson Hale" |};
    {| id := "p3"; name := "Cheyenne WOODS" |} ].

(** The rows of the (event name, date) group, as the specification words
    it: the rows whose event name is [e] and whose scraped date is [d]. *)
Definition in_group (e d : string) (r : Row.t) : Prop :=
  Row.event_name r = Some e /\ Row.date r = Some d.

#[local] Instance in_group_dec e d r : Decision (in_group e d r).
Proof. unfold in_group. apply _. Defined.

(** The rows of the group, in input order. *)
Definition group_of (e d : string) (rows : list Row.t) : list Row.t :=
  filter (in_group e d) rows.

(** A value at or below the threshold -9000 stands for "no data". *)
Definition is_sentinel (x : Q) : bool := Qle_bool x (-9000).

(** The values of a component in a list of rows that are neither null nor
    sentinels. *)
Definition valid_values (col : Row.t -> option Q) (rows : list Row.t) : list Q :=
  filter (fun x => is_sentinel x = false) (omap col rows).

(** The mean of a list of numbers as the library computes it; none for the
    empty list. *)
Definition float_mean (fl : Float.ops) (xs : list Q) : option Q :=
  match xs with
  | [] => None
  | _ => Some (Float.mean fl xs)
  end.

(** The sum of the non-null values of a column as the library computes
    it. *)
Definition total_of (fl : Float.ops) (col : Row.t -> option Q) (rows : list Row.t) : Q :=
  Float.sum fl (omap col rows).


(** The record the loop builds for the group of key [k]. *)
Definition record_for (to_iso_date : string -> option string) (fl : Float.ops)
    (pid : string) (rows : list Row.t) (k : string * string) : option Rec.t :=
  record_of to_iso_date fl pid
    (agg_group fl (k, Pd.group_rows row_key k (filter_sentinels <$> rows))).

(** A round with every column filled in; the total and the score vary. *)
Definition round_row (e d : string) (t rs : option Q) : Row.t :=
  {| Row.event_name := Some e; Row.date := Some d; Row.course_name := Some "Links";
     Row.fin_numeric := Some 5%Q; Row.fin_text := Some "T5";
     Row.total := t; Row.ott := Some (1 # 2)%Q; Row.app := Some (1 # 4)%Q;
     Row.arg := Some (-1 # 4)%Q; Row.putt := Some (7 # 10)%Q;
     Row.round_score := rs |}.

(** The two rounds of the scenario of section 8, the second with a
    sentinel total. *)
Definition open_rounds : list Row.t :=
  [ round_row "Open" "Jun 1, 2024" (Some (6 # 5)%Q) (Some 68%Q);
    round_row "Open" "Jun 1, 2024" (Some (-9999)%Q) (Some 70%Q) ].

(** Two rounds whose totals, 1.25 and 1.3125, are binary fractions with a
    mean, 1.28125, of more than three fractional digits. *)
Definition binary_rounds : list Row.t :=
  [ round_row "Open" "Jun 1, 2024" (Some (5 # 4)%Q) (Some 68%Q);
    round_row "Open" "Jun 1, 2024" (Some (21 # 16)%Q) (Some 70%Q) ].

(** Two groups, the second with a date in another format. *)
Definition mixed_rounds : list Row.t :=
  [ round_row "Open" "Jun 1, 2024" (Some (6 # 5)%Q) (Some 68%Q);
    round_row "Masters" "2024-04-11" (Some (1 # 2)%Q) (Some 70%Q) ].



(** The record of the payload that counts for category [k]: the last one
    with that bin. *)
Definition category (k : string) (skills : list Skill.t) : option Skill.t :=
  list.last (filter (fun s => Skill.bin s = k) skills).

Definition percentile_of (k : string) (skills : list Skill.t) : json :=
  from_option Skill.perc JNull (category k skills).

Definition value_of (k : string) (skills : list Skill.t) : json :=
  from_option Skill.val JNull (category k skills).

(** The fixed table from output field to category key. *)
Definition percentile_fields : list ((Snap.t -> json) * string) :=
  [ (Snap.driving_overall, "driving");
    (Snap.driving_distance, "ott_1");
    (Snap.driving_accuracy, "ott_2");
    (Snap.approach_overall, "approach");
    (Snap.approach_50_100, "app_1");
    (Snap.approach_100_150, "app_2");
    (Snap.approach_150_200, "app_3");
    (Snap.approach_200_plus, "app_4");
    (Snap.around_green_overall, "around");
    (Snap.around_green_fairway, "arg_1");
    (Snap.around_green_rough, "arg_2");
    (Snap.around_green_bunker, "arg_3");
    (Snap.putting_overall, "putting");
    (Snap.putting_2_5_feet, "putt_1");
    (Snap.putting_5_30, "putt_2");
    (Snap.putting_30_plus, "putt_3") ].

Definition sg_fields : list ((Snap.t -> option pyfloat) * string) :=
  [ (Snap.sg_driving, "driving");
    (Snap.sg_approach, "approach");
    (Snap.sg_around_green, "around");
    (Snap.sg_putting, "putting") ].

(** The reading "a leading plus sign stripped". *)
Definition strip_leading_plus (s : string) : string :=
  match s with
  | String c r => if Ascii.eqb c plus then r else s
  | EmptyString => s
  end.

(** A payload without the "putting" category. *)
Definition skills_without_putting : Reload.t :=
  {| Reload.dg_id := JNum 12;
     Reload.break_skills :=
       [ {| Skill.bin := "driving"; Skill.perc := JNum 55; Skill.val := JStr "+0.4567" |};
         {| Skill.bin := "approach"; Skill.perc := JNum 71; Skill.val := JStr "-0.12" |};
         {| Skill.bin := "app_3"; Skill.perc := JNum 40; Skill.val := JStr "n/a" |} ] |}.

(** A payload whose putting value has a plus sign inside. *)
Definition skills_inner_plus : Reload.t :=
  {| Reload.dg_id := JNum 12;
     Reload.break_skills :=
       [ {| Skill.bin := "putting"; Skill.perc := JNum 55; Skill.val := JStr "1+5" |} ] |}.

Definition empty_store : Db.t := {| Db.results := ∅; Db.profiles := ∅ |}.

Definition two_players : list player :=
  [ {| id := "p1"; name := "Tiger Woods" |};
    {| id := "p2"; name := "Rory McIlroy" |} ].

(** A run in which every player has the two "Open" rounds and no skills,
    with the given store failures. *)
Definition env_with (keyed plain : nat -> option string) : env :=
  {| registry := two_players;
     scrape_player := fun _ => Some {| new_data := open_rounds; reload_data := None |};
     to_iso_date := Datetime.to_iso_date;
     float_of_str := Decimal.float_of_str;
     float_ops := exact_arithmetic;
     utcnow := fun _ => "2026-01-26T08:00:00";
     keyed_error := keyed;
     plain_error := plain;
     plain_write := Db.upsert_keyed;
     update_error := fun _ => None |}.

(** The record [open_rounds] aggregates to. *)
Definition open_record_of (pid : string) : Rec.t :=
  {| Rec.pga_player_id := pid;
     Rec.tournament_name := "Open";
     Rec.course_name := "Links";
     Rec.tournament_date := "2024-06-01";
     Rec.finish_position := Some 5%Z;
     Rec.is_made_cut := true;
     Rec.total_score := Some 138%Z;
     Rec.strokes_gained_total := Some (6 # 5)%Q;
     Rec.strokes_gained_putting := Some (7 # 10)%Q;
     Rec.strokes_gained_approach := Some (1 # 4)%Q;
     Rec.strokes_gained_around_green := Some (-1 # 4)%Q;
     Rec.strokes_gained_off_tee := Some (1 # 2)%Q |}.

(** The first player meets a failing keyed upsert and a failing retry. *)
Definition env_conflict : env :=
  env_with (fun i => if Nat.eqb i 0 then Some "no constraint for on_conflict" else None)
           (fun i => if Nat.eqb i 0 then Some "duplicate key" else None).

(** A snapshot without its freshness timestamp. *)
Definition erase_clock (sk : Snap.t) : Snap.t :=
  {| Snap.dg_id := Snap.dg_id sk;
     Snap.driving_overall := Snap.driving_overall sk;
     Snap.driving_distance := Snap.driving_distance sk;
     Snap.driving_accuracy := Snap.driving_accuracy sk;
     Snap.approach_overall := Snap.approach_overall sk;
     Snap.approach_50_100 := Snap.approach_50_100 sk;
     Snap.approach_100_150 := Snap.approach_100_150 sk;
     Snap.approach_150_200 := Snap.approach_150_200 sk;
     Snap.approach_200_plus := Snap.approach_200_plus sk;
     Snap.around_green_overall := Snap.around_green_overall sk;
     Snap.around_green_fairway := Snap.around_green_fairway sk;
     Snap.around_green_rough := Snap.around_green_rough sk;
     Snap.around_green_bunker := Snap.around_green_bunker sk;
     Snap.putting_overall := Snap.putting_overall sk;
     Snap.putting_2_5_feet := Snap.putting_2_5_feet sk;
     Snap.putting_5_30 := Snap.putting_5_30 sk;
     Snap.putting_30_plus := Snap.putting_30_plus sk;
     Snap.sg_driving := Snap.sg_driving sk;
     Snap.sg_approach := Snap.sg_approach sk;
     Snap.sg_around_green := Snap.sg_around_green sk;
     Snap.sg_putting := Snap.sg_putting sk;
     Snap.skills_updated_at := "" |}.

(** Two runs see the same registry, fetch the same data and run the same
    libraries. *)
Definition same_fetch (E1 E2 : env) : Prop :=
  registry E1 = registry E2 /\
  scrape_player E1 = scrape_player E2 /\
  to_iso_date E1 = to_iso_date E2 /\
  float_of_str E1 = float_of_str E2 /\
  float_ops E1 = float_ops E2.

(** The store accepts every keyed upsert and every skills update. *)
Definition writes_succeed (E : env) : Prop :=
  forall i, keyed_error E i = None /\ update_error E i = None.

(** The store after a run. *)
Definition store_after (E : env) (players : list string) (store : Db.t) : Db.t :=
  (main E players store).1.1.

(** From [s] to [o] the run has written the rows [W] and the snapshots [P]
    over what was stored, the snapshots being seen through [h]. *)
Definition adds (h : Snap.t -> Snap.t) (W : gmap (string * string * string) Rec.t)
    (P : gmap string Snap.t) (s o : run) : Prop :=
  Db.results (db o) = W ∪ Db.results (db s) /\
  h <$> Db.profiles (db o) = P ∪ (h <$> Db.profiles (db s)).

(** A run in which every player has the two "Open" rounds and a skill
    payload, read at the given time; the store accepts every write. *)
Definition env_at (now : string) : env :=
  {| registry := two_players;
     scrape_player := fun _ =>
       Some {| new_data := open_rounds; reload_data := Some skills_without_putting |};
     to_iso_date := Datetime.to_iso_date;
     float_of_str := Decimal.float_of_str;
     float_ops := exact_arithmetic;
     utcnow := fun _ => now;
     keyed_error := fun _ => None;
     plain_error := fun _ => None;
     plain_write := Db.upsert_keyed;
     update_error := fun _ => None |}.

(** * Further functions of the script *)

(** ** The most recent tournament (lines 38-74) *)

Module Re.

(** The longest run of ASCII digits at the head of a string, and the rest. *)
Fixpoint take_digits (s : string) : string * string :=
  match s with
  | String c s' =>
      if Datetime.is_digit c
      then let '(ds, rest) := take_digits s' in (String c ds, rest)
      else (EmptyString, s)
  | EmptyString => (EmptyString, EmptyString)
  end.

(** The text after the prefix [p], when the string starts with it. *)
Fixpoint strip_prefix (p s : string) : option string :=
  match p, s with
  | EmptyString, _ => Some s
  | String a p', String b s' => if Ascii.eqb a b then strip_prefix p' s' else None
  | String _ _, EmptyString => None
  end.

(** A match of [/past-results/pga-tour/(\d+)/(\d{4})] at the head of the
    string: the two groups and the length of the match. *)
Definition match_here (s : string) : option (string * string * nat) :=
  rest ← strip_prefix "/past-results/pga-tour/" s;
  let '(e, rest) := take_digits rest in
  if String.eqb e "" then None
  else
    match rest with
    | String "/" (String a (String b (String c (String d _)))) =>
        if Datetime.is_digit a && Datetime.is_digit b &&
           Datetime.is_digit c && Datetime.is_digit d
        then Some (e, String a (String b (String c (String d EmptyString))),
                   (String.length "/past-results/pga-tour/" + String.length e + 5)%nat)
        else None
    | _ => None
    end.

(** [re.findall] of that pattern: the matches from left to right, none
    overlapping another; [skip] counts the characters of the last match
    still to pass. *)
Fixpoint findall_from (skip : nat) (s : string) : list (string * string) :=
  match s with
  | EmptyString => []
  | String _ s' =>
      match skip with
      | S k => findall_from k s'
      | O =>
          match match_here s with
          | Some (e, y, len) => (e, y) :: findall_from (Nat.pred len) s'
          | None => findall_from 0 s'
          end
      end
  end.

Definition findall (html : string) : list (string * string) := findall_from 0 html.

End Re.

(** [int(s)] on a string of ASCII digits. *)
Definition int_of_digits (s : string) : Z :=
  (fix go (acc : Z) (s : string) : Z :=
     match s with
     | EmptyString => acc
     | String c s' => go (10 * acc + Datetime.digit c)%Z s'
     end) 0%Z s.

(** The loop of lines 47-50: a pair of strings not seen before, of a year
    from 2024 on, becomes a candidate. *)
Fixpoint candidates_from (seen : gset (string * string))
    (matches : list (string * string)) : list (Z * Z) :=
  match matches with
  | [] => []
  | (e, y) :: rest =>
      if (2024 <=? int_of_digits y)%Z && negb (bool_decide ((e, y) ∈ seen))
      then (int_of_digits e, int_of_digits y) :: candidates_from ({[(e, y)]} ∪ seen) rest
      else candidates_from seen rest
  end.

(** The loop of lines 55-67 over the first fifteen candidates.  [page_date e
    y] is what the script run on the page of the event returns: its date, or
    nothing when the page has no leaderboard; an empty date is falsy. *)
Definition with_dates_of (page_date : Z -> Z -> option string) (cands : list (Z * Z))
  : list (Z * Z * string) :=
  omap (fun c : Z * Z =>
          match page_date c.1 c.2 with
          | Some d => if String.eqb d "" then None else Some (c.1, c.2, d)
          | None => None
          end) (take 15 cands).

(** One step of a stable sort by date, latest first: the element goes in
    front of the first one whose date is not later than its own. *)
Fixpoint insert_by_date (x : Z * Z * string) (l : list (Z * Z * string))
  : list (Z * Z * string) :=
  match l with
  | [] => [x]
  | y :: l' => if String.ltb x.2 y.2 then y :: insert_by_date x l' else x :: l
  end.

(** [with_dates.sort(key=lambda x: x[2], reverse=True)]: by date, latest
    first, elements of the same date in their order. *)
Definition sort_by_date_desc (l : list (Z * Z * string)) : list (Z * Z * string) :=
  foldr insert_by_date [] l.

(** [get_latest_pga_tournament]: [html] is the source of the past-results
    page. *)
Definition get_latest_pga_tournament (html : string)
    (page_date : Z -> Z -> option string) : option (Z * Z) :=
  let matches := Re.findall html in
  let candidates := candidates_from ∅ matches in
  match sort_by_date_desc (with_dates_of page_date candidates) with
  | [] => None
  | (event_id, year, _) :: _ => Some (event_id, year)
  end.

(** ** The tournament of the past-results page (lines 105-112) *)

(** The [info] object of the page; a key it leaves out is [None]. *)
Module Info.
Record t := {
  event_name : option string;
  display_name : option string;
  date : option string
}.
End Info.

(** What [data.get("info")] holds: nothing, one object, or a list. *)
Inductive info_value :=
  | NoInfo
  | OneInfo (i : Info.t)
  | InfoList (l : list Info.t).

Definition empty_info : Info.t :=
  {| Info.event_name := None; Info.display_name := None; Info.date := None |}.

(** Lines 105-107. *)
Definition info_of (v : info_value) : Info.t :=
  match v with
  | NoInfo => empty_info
  | OneInfo i => i
  | InfoList [] => empty_info
  | InfoList (i :: _) => i
  end.

(** [x or y] on strings that may be missing: the first that is neither
    missing nor empty. *)
Definition or_else (x : option string) (y : string) : string :=
  match x with
  | Some s => if String.eqb s "" then y else s
  | None => y
  end.

(** The [tournament] dict of lines 109-112, as (name, date). *)
Definition tournament_of (v : info_value) (event_id year : Z) : string * string :=
  let info := info_of v in
  (or_else (Info.event_name info)
     (or_else (Info.display_name info) ("Event " +:+ pretty event_id)),
   default (pretty year +:+ "-01-01") (Info.date info)).

(** ** Vocabulary of the further properties *)

(** The id comes from a record of the registry. *)
Definition registered (reg : list player) (pid : string) : Prop :=
  exists p, p ∈ reg /\ id p = pid.

(** The write concerns players of the registry only. *)
Definition event_registered (reg : list player) (ev : event) : Prop :=
  match ev with
  | KeyedUpsert records _ | PlainUpsert records _ =>
      forall r, r ∈ records -> registered reg (Rec.pga_player_id r)
  | SkillUpdate pid _ _ => registered reg pid
  end.

(** The writes of the three kinds the store accepted, and the keyed upserts
    sent. *)
Definition accepted_upsert (ev : event) : bool :=
  match ev with
  | KeyedUpsert _ None | PlainUpsert _ None => true
  | _ => false
  end.

Definition accepted_update (ev : event) : bool :=
  match ev with
  | SkillUpdate _ _ None => true
  | _ => false
  end.

Definition keyed_upsert (ev : event) : bool :=
  match ev with
  | KeyedUpsert _ _ => true
  | _ => false
  end.

(** The number of events of a kind in a log. *)
Definition count (f : event -> bool) (l : list event) : nat :=
  List.length (List.filter f l).

(** The five strokes-gained components of a record with their columns. *)
Definition components : list ((Rec.t -> option Q) * (Row.t -> option Q)) :=
  [ (Rec.strokes_gained_total, Row.total);
    (Rec.strokes_gained_off_tee, Row.ott);
    (Rec.strokes_gained_approach, Row.app);
    (Rec.strokes_gained_around_green, Row.arg);
    (Rec.strokes_gained_putting, Row.putt) ].

(** Two scraped spellings of one day, in two groups of one tournament. *)
Definition same_day_rounds : list Row.t :=
  [ round_row "Open" "Jun 1, 2024" (Some (6 # 5)%Q) (Some 68%Q);
    round_row "Open" "Jun 01, 2024" (Some (1 # 2)%Q) (Some 70%Q) ].

(** No two rounds of one event carry different scraped dates that parse to
    the same day. *)
Definition dates_told_apart (to_iso : string -> option string) (rows : list Row.t)
  : Prop :=
  forall r1 r2 d1 d2 iso,
    r1 ∈ rows -> r2 ∈ rows ->
    Row.event_name r1 = Row.event_name r2 ->
    Row.date r1 = Some d1 -> Row.date r2 = Some d2 ->
    to_iso d1 = Some iso -> to_iso d2 = Some iso -> d1 = d2.

(** Rounds of two events, one of them played on two days. *)
Definition season_rounds : list Row.t :=
  [ round_row "Open" "Jun 1, 2024" (Some (6 # 5)%Q) (Some 68%Q);
    round_row "Masters" "Apr 11, 2024" (Some (1 # 2)%Q) (Some 70%Q);
    round_row "Open" "Jun 8, 2024" (Some (1 # 4)%Q) (Some 71%Q);
    round_row "Open" "Jun 1, 2024" (Some (3 # 4)%Q) (Some 69%Q) ].

(** The category keys the snapshot reads. *)
Definition skill_keys : list string := percentile_fields.*2.

(** What holds of the counters and the log of a run after at most [m]
    iterations. *)
Definition counted (m : nat) (s : run) : Prop :=
  skills_ok s = count accepted_update (log s) /\
  (count accepted_upsert (log s) <= tourn_ok s)%nat /\
  (tourn_ok s <= count keyed_upsert (log s))%nat /\
  (tourn_ok s <= m)%nat /\ (skills_ok s <= m)%nat.

(** The store of [s] holds every key the store [d] holds, and the same
    value under every key that belongs to no registry record. *)
Definition preserves (reg : list player) (d : Db.t) (s : run) : Prop :=
  (forall k, is_Some (Db.results d !! k) -> is_Some (Db.results (db s) !! k)) /\
  (forall k, ~ registered reg k.1.1 -> Db.results (db s) !! k = Db.results d !! k) /\
  (forall pid, is_Some (Db.profiles d !! pid) -> is_Some (Db.profiles (db s) !! pid)) /\
  (forall pid, ~ registered reg pid -> Db.profiles (db s) !! pid = Db.profiles d !! pid).

(** * Properties *)

Local Arguments String.append : simpl nomatch.

(** ** Strings *)

Lemma lstrip_blank_app w s : blank w -> Py.lstrip (w +:+ s) = Py.lstrip s.
Proof.
  unfold blank. induction w as [|c w IH]; simpl; [done|].
  destruct (Py.is_space c); [done | discriminate].
Qed.

Lemma rstrip_app a b :
  Py.rstrip (a +:+ b) =
  match Py.rstrip b with
  | EmptyString => Py.rstrip a
  | r => a +:+ r
  end.
Proof.
  induction a as [|c a IH]; simpl.
  - by destruct (Py.rstrip b).
  - rewrite IH. destruct (Py.rstrip b) as [|y r]; [done|].
    by destruct a.
Qed.

Lemma rstrip_blank w : blank w -> Py.rstrip w = "".
Proof.
  unfold blank. induction w as [|c w IH]; simpl; [done|].
  destruct (Py.is_space c) eqn:Hc; [|discriminate].
  intros H. by rewrite IH.
Qed.

Lemma strip_blank_around w1 w2 s :
  blank w1 -> blank w2 -> Py.strip (w1 +:+ s +:+ w2) = Py.strip s.
Proof.
  intros H1 H2. unfold Py.strip.
  rewrite rstrip_app. rewrite (rstrip_app s w2), (rstrip_blank w2 H2).
  destruct (Py.rstrip s) as [|c r] eqn:Hs.
  - by rewrite (rstrip_blank w1 H1).
  - by rewrite lstrip_blank_app.
Qed.

Lemma is_space_comma : Py.is_space comma = false.
Proof. reflexivity. Qed.

Lemma has_char_app c a b :
  Py.has_char c (a +:+ b) = Py.has_char c a || Py.has_char c b.
Proof.
  induction a as [|x a IH]; simpl; [done|].
  by destruct (Ascii.eqb c x).
Qed.

Lemma blank_no_comma w : blank w -> Py.has_char comma w = false.
Proof.
  unfold blank. induction w as [|c w IH]; cbn [Py.lstrip Py.has_char]; [done|].
  destruct (Py.is_space c) eqn:Hc; [|discriminate].
  destruct (Ascii.eqb_spec comma c) as [<-|_]; [|exact IH].
  by rewrite is_space_comma in Hc.
Qed.

Lemma split_once_app c a b :
  Py.has_char c a = false ->
  Py.split_once c (a +:+ String c b) = (a, b).
Proof.
  induction a as [|x a IH]; simpl.
  - by rewrite Ascii.eqb_refl.
  - destruct (Ascii.eqb c x); [discriminate|]. intros H. by rewrite IH.
Qed.

Lemma strip_trimmed s : trimmed s -> Py.strip s = s.
Proof. intros [Hl Hr]. unfold Py.strip. by rewrite Hr. Qed.

Lemma strip_trimmed_around w1 w2 s :
  trimmed s -> blank w1 -> blank w2 -> Py.strip (w1 +:+ s +:+ w2) = s.
Proof.
  intros Hs H1 H2. rewrite strip_blank_around by done. by apply strip_trimmed.
Qed.

Lemma lstrip_nonblank_app a b :
  Py.lstrip a <> "" -> Py.lstrip (a +:+ b) = Py.lstrip a +:+ b.
Proof.
  induction a as [|c a IH]; simpl; [done|].
  by destruct (Py.is_space c).
Qed.

(** Two trimmed, non-empty names joined by one space make a trimmed name. *)
Lemma trimmed_join f l :
  trimmed f -> trimmed l -> f <> "" -> l <> "" -> trimmed (f +:+ " " +:+ l).
Proof.
  intros [Hfl Hfr] [Hll Hlr] Hf Hl. split.
  - rewrite lstrip_nonblank_app by congruence. by rewrite Hfl.
  - rewrite rstrip_app. simpl. rewrite Hlr. by destruct l.
Qed.

Lemma lstrip_idem s : Py.lstrip (Py.lstrip s) = Py.lstrip s.
Proof.
  induction s as [|c s IH]; [done|]. cbn [Py.lstrip].
  destruct (Py.is_space c) eqn:Hc; [done|]. cbn [Py.lstrip]. by rewrite Hc.
Qed.

Lemma rstrip_cons c s :
  Py.rstrip (String c s)
  = match Py.rstrip s with
    | EmptyString => if Py.is_space c then EmptyString else String c EmptyString
    | r => String c r
    end.
Proof. done. Qed.

Lemma rstrip_idem s : Py.rstrip (Py.rstrip s) = Py.rstrip s.
Proof.
  induction s as [|c s IH]; [done|]. rewrite (rstrip_cons c s).
  destruct (Py.rstrip s) as [|y r] eqn:Hr.
  - destruct (Py.is_space c) eqn:Hc; [done|]. by rewrite rstrip_cons, Hc.
  - by rewrite rstrip_cons, IH.
Qed.

Lemma rstrip_lstrip s : Py.rstrip s = s -> Py.rstrip (Py.lstrip s) = Py.lstrip s.
Proof.
  induction s as [|c s IH]; [done|]. cbn [Py.lstrip].
  destruct (Py.is_space c) eqn:Hc; [|done].
  rewrite rstrip_cons, Hc.
  destruct (Py.rstrip s) as [|y r] eqn:Hr; [done|].
  intros [= E]. apply IH. congruence.
Qed.

Lemma has_char_lstrip c s :
  Py.has_char c s = false -> Py.has_char c (Py.lstrip s) = false.
Proof.
  induction s as [|a s IH]; [done|]. cbn [Py.lstrip Py.has_char].
  destruct (Py.is_space a).
  - destruct (Ascii.eqb c a); [done | exact IH].
  - done.
Qed.

Lemma has_char_rstrip c s :
  Py.has_char c s = false -> Py.has_char c (Py.rstrip s) = false.
Proof.
  induction s as [|a s IH]; [done|]. rewrite rstrip_cons. cbn [Py.has_char].
  destruct (Ascii.eqb c a) eqn:Hca; [done|]. intros H. specialize (IH H).
  destruct (Py.rstrip s) as [|y r].
  - destruct (Py.is_space a); [done|]. cbn [Py.has_char]. by rewrite Hca.
  - cbn [Py.has_char] in *. by rewrite Hca.
Qed.

Lemma trimmed_strip s : trimmed (Py.strip s).
Proof.
  unfold trimmed, Py.strip. split; [apply lstrip_idem|].
  apply rstrip_lstrip, rstrip_idem.
Qed.

Lemma split_nil_blank s : Py.split s = [] -> blank s.
Proof.
  unfold blank. induction s as [|c s IH]; [done|]. cbn [Py.split Py.lstrip].
  destruct (Py.is_space c); [done|].
  destruct s as [|c' s']; [done|].
  destruct (Py.is_space c'); [done|].
  by destruct (Py.split (String c' s')).
Qed.

Lemma strip_blank s : blank s -> Py.strip s = "".
Proof. intros H. unfold Py.strip. by rewrite rstrip_blank. Qed.

(** ** Name normalization (claim C8) *)

Lemma normalize_name_comma last first :
  Py.has_char comma last = false ->
  normalize_name (last +:+ "," +:+ first) = Py.strip first +:+ " " +:+ Py.strip last.
Proof.
  intros H. unfold normalize_name.
  change ("," +:+ first) with (String comma first).
  rewrite has_char_app, H. cbn [Py.has_char orb].
  rewrite Ascii.eqb_refl, split_once_app by done. done.
Qed.

Lemma normalize_name_plain n :
  Py.has_char comma n = false -> normalize_name n = Py.strip n.
Proof. intros H. unfold normalize_name. by rewrite H. Qed.

(** C8, amended.  A display name with a comma is mapped to the trimmed
    text after its first comma, one space, and the trimmed text before that
    comma; when neither part is blank the result is trimmed.  So ["Last,
    First"], whatever whitespace surrounds its two parts, is mapped to
    ["First Last"] with exactly one space between the trimmed parts.  A name
    without a comma is returned with the surrounding whitespace removed,
    the result is trimmed, and normalizing it again changes nothing; a
    trimmed name without a comma is returned as it is. *)
Theorem normalize_name_canonical :
  (forall l r : string,
      Py.has_char comma l = false ->
      normalize_name (l +:+ "," +:+ r) = Py.strip r +:+ " " +:+ Py.strip l /\
      (Py.strip l <> "" -> Py.strip r <> "" ->
       trimmed (normalize_name (l +:+ "," +:+ r)))) /\
  (forall l f w1 w2 w3 w4 : string,
      trimmed l -> trimmed f -> Py.has_char comma l = false ->
      blank w1 -> blank w2 -> blank w3 -> blank w4 ->
      normalize_name ((w1 +:+ l +:+ w2) +:+ "," +:+ (w3 +:+ f +:+ w4))
      = f +:+ " " +:+ l /\
      (l <> "" -> f <> "" ->
       trimmed (normalize_name ((w1 +:+ l +:+ w2) +:+ "," +:+ (w3 +:+ f +:+ w4))))) /\
  (forall n : string,
      Py.has_char comma n = false ->
      normalize_name n = Py.strip n /\
      trimmed (normalize_name n) /\
      normalize_name (normalize_name n) = normalize_name n) /\
  (forall n w1 w2 : string,
      trimmed n -> Py.has_char comma n = false -> blank w1 -> blank w2 ->
      normalize_name (w1 +:+ n +:+ w2) = n) /\
  (forall n : string,
      trimmed n -> Py.has_char comma n = false -> normalize_name n = n).
Proof.
  split; [|split; [|split; [|split]]].
  - intros l r Hc. rewrite (normalize_name_comma l r Hc). split; [done|].
    intros Hl Hr. apply trimmed_join; [apply trimmed_strip..|done|done].
  - intros l f w1 w2 w3 w4 Hl Hf Hc H1 H2 H3 H4.
    assert (Heq : normalize_name ((w1 +:+ l +:+ w2) +:+ "," +:+ (w3 +:+ f +:+ w4))
                  = f +:+ " " +:+ l).
    { rewrite normalize_name_comma.
      + by rewrite !strip_trimmed_around.
      + rewrite !has_char_app, Hc.
        by rewrite (blank_no_comma w1), (blank_no_comma w2). }
    split; [done|]. intros Hle Hfe. rewrite Heq. by apply trimmed_join.
  - intros n Hc. rewrite (normalize_name_plain n Hc).
    split; [done|]. split; [apply trimmed_strip|].
    rewrite normalize_name_plain.
    + apply strip_trimmed, trimmed_strip.
    + by apply has_char_lstrip, has_char_rstrip.
  - intros n w1 w2 Hn Hc H1 H2.
    rewrite normalize_name_plain.
    + by apply strip_trimmed_around.
    + rewrite !has_char_app, Hc.
      by rewrite (blank_no_comma w1), (blank_no_comma w2).
  - intros n Hn Hc. rewrite normalize_name_plain by done. by apply strip_trimmed.
Qed.

Lemma normalize_name_canonical_witness :
  normalize_name ((" " +:+ "Woods" +:+ "") +:+ "," +:+ (" " +:+ "Tiger" +:+ "  "))
  = "Tiger" +:+ " " +:+ "Woods" /\
  ("Woods" <> "" -> "Tiger" <> "" ->
   trimmed (normalize_name
              ((" " +:+ "Woods" +:+ "") +:+ "," +:+ (" " +:+ "Tiger" +:+ "  ")))).
Proof.
  apply (proj1 (proj2 normalize_name_canonical) "Woods" "Tiger" " " "" " " "  ");
    solve [ split; reflexivity | reflexivity ].
Defined.

(** C8 as stated fails on a name with a comma and nothing after it:
    ["Woods,"] is mapped to [" Woods"], which is not trimmed and which
    another normalization changes again. *)
Lemma name_with_trailing_comma_keeps_a_space :
  Py.has_char comma "Woods," = true /\
  normalize_name "Woods," = " Woods" /\
  ~ trimmed (normalize_name "Woods,") /\
  normalize_name (normalize_name "Woods,") <> normalize_name "Woods,".
Proof.
  split; [done|]. split; [done|]. split.
  - intros [H _]. vm_compute in H. discriminate.
  - vm_compute. discriminate.
Qed.

(** ** The alias table and the three player-list sources (claim C10) *)

Lemma field_file_lines_raw (i : nat) (lines : list string) :
  field_file_lines i lines = alias <$> raw_names_from i lines.
Proof.
  revert i. induction lines as [|line rest IH]; intros i; [done|].
  cbn [field_file_lines raw_names_from]. rewrite fmap_app, <- IH.
  unfold raw_name, first_field, header_word.
  destruct (String.eqb_spec (Py.strip line) "") as [E|_].
  { rewrite E. done. }
  destruct (Nat.eqb i 0 && _) eqn:Hh.
  { by rewrite orb_true_r. }
  rewrite orb_false_r.
  by destruct (String.eqb _ "").
Qed.

Lemma tournament_names_aliased (rows : list tp_row) :
  omap (fun row => alias <$> tp_name row) rows = alias <$> omap tp_name rows.
Proof. by rewrite list_fmap_omap. Qed.

Lemma field_names_named (names : list string) :
  field_names (named <$> names) = Py.Ret (normalize_name <$> names).
Proof.
  induction names as [|n names IH]; [done|].
  cbn [fmap list_fmap field_names named player_name].
  fold (named <$> names). by rewrite IH.
Qed.

(** C10.  Every name the field-file source hands to the loop, and every
    name the tournament-id source hands to it, has gone through
    [NAME_ALIASES]; the names of the past-results source are the normalized
    display names, which have not.  For every entry of the table the first
    two sources give the aliased spelling where the third gives the name as
    it is, and the two spellings differ. *)
Theorem alias_applied_by_two_sources_only :
  (forall lines : list string,
      load_players_from_field_file lines = alias <$> raw_names_from 0 lines) /\
  (forall (r : Response.t) (players : list string),
      load_players_from_tournament r = Py.Ret (Some players) ->
      players = alias <$> omap tp_name (Response.data r)) /\
  (forall names : list string,
      names <> [] ->
      fetch_field_from_past_results (Some (named <$> names))
      = Py.Ret (Some (normalize_name <$> names))) /\
  (forall k v : string,
      NAME_ALIASES !! k = Some v ->
      load_players_from_field_file [k] = [v] /\
      load_players_from_tournament (response_of [{| pga_players := Some (Some k) |}])
      = Py.Ret (Some [v]) /\
      fetch_field_from_past_results (Some [named k]) = Py.Ret (Some [k]) /\
      k <> v).
Proof.
  split; [|split; [|split]].
  - intros lines. apply field_file_lines_raw.
  - intros r players H. unfold load_players_from_tournament in H.
    destruct (Response.error r) as [[]|]; [done| |done].
    rewrite tournament_names_aliased in H.
    by destruct (alias <$> omap tp_name (Response.data r)); simplify_eq.
  - intros names Hne. unfold fetch_field_from_past_results.
    rewrite field_names_named. by destruct names.
  - intros k v H.
    apply elem_of_list_to_map_2 in H.
    repeat (apply elem_of_cons in H as [H|H]; [injection H as -> ->; by vm_compute|]).
    by apply elem_of_nil in H.
Qed.

Lemma alias_applied_by_two_sources_only_witness :
  load_players_from_field_file ["Matthias Schmid"] = ["Matti Schmid"] /\
  load_players_from_tournament
    (response_of [{| pga_players := Some (Some "Matthias Schmid") |}])
  = Py.Ret (Some ["Matti Schmid"]) /\
  fetch_field_from_past_results (Some [named "Matthias Schmid"])
  = Py.Ret (Some ["Matthias Schmid"]) /\
  "Matthias Schmid" <> "Matti Schmid".
Proof.
  apply (proj2 (proj2 (proj2 alias_applied_by_two_sources_only))
           "Matthias Schmid" "Matti Schmid").
  reflexivity.
Defined.

(** ** Identity resolver (claim C2) *)

Lemma is_space_lower_char c : Py.is_space (Py.lower_char c) = Py.is_space c.
Proof. by destruct c as [[] [] [] [] [] [] [] []]. Qed.

Lemma split_token_head s t :
  t ∈ Py.split s -> exists c t', t = String c t' /\ Py.is_space c = false.
Proof.
  revert t. induction s as [|c s IH]; intros t; cbn [Py.split].
  - by intros ?%elem_of_nil.
  - destruct (Py.is_space c) eqn:Hc; [by apply IH|].
    destruct s as [|c' s'].
    + intros ->%list_elem_of_singleton. eauto.
    + destruct (Py.is_space c') eqn:Hc'.
      * intros [->|H]%elem_of_cons; [eauto | by apply IH].
      * destruct (Py.split (String c' s')) as [|t0 ts] eqn:Hs.
        -- intros ->%list_elem_of_singleton. eauto.
        -- intros [->|H]%elem_of_cons; [eauto|].
           apply IH. by apply elem_of_cons; right.
Qed.

Lemma split_nonempty s d :
  Py.has_char d s = true -> Py.is_space d = false -> Py.split s <> [].
Proof.
  induction s as [|c s IH]; cbn [Py.has_char Py.split]; [done|].
  intros H Hd.
  destruct (Py.is_space c) eqn:Hc.
  - destruct (Ascii.eqb_spec d c) as [->|_]; [congruence | by apply IH].
  - destruct s as [|c' s']; [done|].
    destruct (Py.is_space c'); [done|].
    by destruct (Py.split (String c' s')).
Qed.

Lemma startswith_head c t s :
  Py.startswith (String c t) s = true -> Py.has_char c s = true.
Proof.
  destruct s as [|b s]; cbn [Py.startswith Py.has_char]; [done|].
  by destruct (Ascii.eqb c b).
Qed.

Lemma contains_head c t s :
  Py.contains (String c t) s = true -> Py.has_char c s = true.
Proof.
  induction s as [|b s IH].
  - cbn. done.
  - cbn [Py.contains]. intros [H|H]%orb_true_iff.
    + by apply startswith_head in H.
    + cbn [Py.has_char]. destruct (Ascii.eqb c b); [done | by apply IH].
Qed.

Lemma has_char_lower c s :
  Py.has_char c (Py.lower s) = true ->
  exists d, Py.has_char d s = true /\ Py.lower_char d = c.
Proof.
  induction s as [|b s IH]; cbn [Py.lower Py.has_char]; [done|].
  destruct (Ascii.eqb_spec c (Py.lower_char b)) as [->|_].
  - intros _. exists b. by rewrite Ascii.eqb_refl.
  - intros [d [Hd <-]]%IH. exists d. split; [|done].
    by rewrite Hd; destruct (Ascii.eqb d b).
Qed.

(** A name that contains a token of another name has a token itself. *)
Lemma candidate_has_token key n s :
  last_token n = Some key -> contains_ci key s = true -> Py.split s <> [].
Proof.
  unfold last_token, contains_ci. intros Hk Hc.
  apply last_Some_elem_of, split_token_head in Hk as (c & t & -> & Hsp).
  cbn [Py.lower] in Hc. apply contains_head, has_char_lower in Hc as (d & Hd & Hl).
  apply (split_nonempty s d Hd).
  by rewrite <- is_space_lower_char, Hl, is_space_lower_char.
Qed.

Lemma first_surname_match_filter key cands :
  Forall (fun p => Py.split (name p) <> []) cands ->
  first_surname_match key cands
  = Py.Ret (id <$> head (filter (fun p => surname_is key p = true) cands)).
Proof.
  induction 1 as [|p cands Hp _ IH]; [done|].
  cbn [first_surname_match]. rewrite filter_cons.
  assert (Hs : surname_is key p =
               match list.last (Py.split (name p)) with
               | Some t => String.eqb (Py.lower key) (Py.lower t)
               | None => false
               end) by done.
  destruct (list.last (Py.split (name p))) as [t|] eqn:Ht.
  - destruct (String.eqb (Py.lower key) (Py.lower t)) eqn:Heq.
    + by rewrite decide_True.
    + rewrite decide_False; [done | by rewrite Hs].
  - by apply last_None in Ht.
Qed.

Lemma select_eq_name_nil reg n :
  (forall p, p ∈ reg -> name p <> n) -> Store.select_eq_name reg n = [].
Proof.
  intros H. unfold Store.select_eq_name.
  destruct (filter _ reg) as [|p l] eqn:Hf; [done|].
  assert (Hp : p ∈ filter (fun p => name p = n) reg) by (rewrite Hf; left).
  apply list_elem_of_filter in Hp as [Hn Hp]. by destruct (H p Hp).
Qed.

(** C2, amended.  [get_player_id] returns the id of the first exact name
    match when there is one.  When there is none and the name has at least
    one token, it returns the id of the first record, among those whose name
    contains the last token of the input (letter case ignored), whose own
    last token equals that token (letter case ignored), and [None] when there
    is no such record, in particular when no record contains the token. *)
Theorem get_player_id_resolves (reg : list player) (n : string) :
  (forall p, head (filter (fun p => name p = n) reg) = Some p ->
             get_player_id reg n = Py.Ret (Some (id p))) /\
  (forall key,
      (forall p, p ∈ reg -> name p <> n) ->
      last_token n = Some key ->
      get_player_id reg n
      = Py.Ret (id <$> head (filter (fun p => surname_is key p = true)
                               (filter (fun p => contains_ci key (name p) = true) reg)))) /\
  (forall key,
      (forall p, p ∈ reg -> name p <> n) ->
      last_token n = Some key ->
      (forall p, p ∈ reg -> contains_ci key (name p) = false) ->
      get_player_id reg n = Py.Ret None).
Proof.
  assert (Hmain : forall key,
      (forall p, p ∈ reg -> name p <> n) ->
      last_token n = Some key ->
      get_player_id reg n
      = Py.Ret (id <$> head (filter (fun p => surname_is key p = true)
                               (filter (fun p => contains_ci key (name p) = true) reg)))).
  { intros key Hne Hk. unfold get_player_id.
    rewrite select_eq_name_nil by done.
    unfold last_token in Hk. rewrite Hk.
    apply first_surname_match_filter, Forall_forall.
    intros p [Hc _]%list_elem_of_filter.
    by apply (candidate_has_token key n). }
  split; [|split].
  - intros p Hp. unfold get_player_id, Store.select_eq_name.
    by destruct (filter _ reg) as [|q l]; simplify_eq/=.
  - exact Hmain.
  - intros key Hne Hk Hnone. rewrite (Hmain key Hne Hk).
    replace (filter (fun p => contains_ci key (name p) = true) reg) with (@nil player); [done|].
    symmetry. destruct (filter _ reg) as [|p l] eqn:Hf; [done|].
    assert (Hp : p ∈ filter (fun p => contains_ci key (name p) = true) reg)
      by (rewrite Hf; left).
    apply list_elem_of_filter in Hp as [Hc Hp]. rewrite (Hnone p Hp) in Hc. done.
Qed.

Lemma get_player_id_resolves_witness :
  get_player_id registry_example "T. woods" = Py.Ret (Some "p1").
Proof.
  apply (proj1 (proj2 (get_player_id_resolves registry_example "T. woods")) "woods").
  - intros p Hp.
    repeat (apply elem_of_cons in Hp as [->|Hp]; [by vm_compute|]).
    by apply elem_of_nil in Hp.
  - reflexivity.
Defined.

(** C2 as stated fails on a name without a token: with an empty registry
    there is neither an exact match nor a candidate, and the call raises
    [IndexError] instead of returning [None]. *)
Lemma get_player_id_blank_name_raises :
  Store.select_eq_name [] "" = [] /\
  get_player_id [] "" = Py.Raise Py.IndexError /\
  get_player_id [] "" <> Py.Ret None.
Proof. by repeat split. Qed.

(** ** The group keys *)

Lemma key_le_iff a b :
  Pd.key_le a b <->
  (a.1 = b.1 /\ String.le a.2 b.2) \/ (a.1 <> b.1 /\ String.le a.1 b.1).
Proof.
  unfold Pd.key_le, Pd.key_leb, String.le.
  destruct (String.eqb_spec a.1 b.1) as [He|Hne]; split.
  - intros H. left. split; [done | by apply Is_true_true].
  - intros [[_ H]|[N _]]; [by apply Is_true_true | done].
  - intros H. right. split; [done | by apply Is_true_true].
  - intros [[E _]|[_ H]]; [done | by apply Is_true_true].
Qed.

#[local] Instance key_le_total : Total Pd.key_le.
Proof.
  intros a b. rewrite !key_le_iff.
  destruct (decide (a.1 = b.1)) as [He|Hne].
  - destruct (total String.le a.2 b.2); [left | right]; left; split; auto.
  - destruct (total String.le a.1 b.1); [left | right]; right; split; auto.
Qed.

#[local] Instance key_le_trans : Transitive Pd.key_le.
Proof.
  intros a b c. rewrite !key_le_iff.
  intros [[E1 L1]|[N1 L1]] [[E2 L2]|[N2 L2]].
  - left. split; [congruence | by etrans].
  - right. split; [congruence | by rewrite E1].
  - right. split; [congruence | by rewrite <- E2].
  - right. split; [|by etrans].
    intros E. rewrite E in L1. destruct N2. by apply (anti_symm String.le).
Qed.

#[local] Instance key_le_antisymm : AntiSymm (=) Pd.key_le.
Proof.
  intros [a1 a2] [b1 b2]. rewrite !key_le_iff. simpl.
  intros [[E1 L1]|[N1 L1]] [[E2 L2]|[N2 L2]]; try congruence.
  - f_equal; [done | by apply (anti_symm String.le)].
  - destruct N1. by apply (anti_symm String.le).
Qed.

Section Groups.

Context {R : Type} (key : R -> option (string * string)).

Lemma elem_of_group_keys k rows :
  k ∈ Pd.group_keys key rows <-> exists r, r ∈ rows /\ key r = Some k.
Proof.
  unfold Pd.group_keys.
  rewrite merge_sort_Permutation, elem_of_remove_dups.
  apply list_elem_of_omap.
Qed.

Lemma NoDup_group_keys rows : NoDup (Pd.group_keys key rows).
Proof.
  unfold Pd.group_keys. rewrite merge_sort_Permutation. apply NoDup_remove_dups.
Qed.

Lemma sorted_group_keys rows : StronglySorted Pd.key_le (Pd.group_keys key rows).
Proof. apply StronglySorted_merge_sort; apply _. Qed.

Lemma StronglySorted_filter_keys (P : string * string -> Prop)
    `{!forall x, Decision (P x)} l :
  StronglySorted Pd.key_le l -> StronglySorted Pd.key_le (filter P l).
Proof.
  induction 1 as [|x l Hl IH Hx]; [constructor|].
  rewrite filter_cons. destruct (decide (P x)); [|done].
  constructor; [done|].
  apply Forall_forall. intros y [_ Hy]%list_elem_of_filter.
  by apply (proj1 (Forall_forall _ _) Hx).
Qed.

(** Leaving out the rows of one group removes its key and no other. *)
Lemma group_keys_without k rows :
  Pd.group_keys key (filter (fun r => key r <> Some k) rows)
  = filter (fun k' => k' <> k) (Pd.group_keys key rows).
Proof.
  apply (StronglySorted_unique Pd.key_le).
  - apply sorted_group_keys.
  - apply StronglySorted_filter_keys, sorted_group_keys.
  - apply NoDup_Permutation.
    + apply NoDup_group_keys.
    + apply NoDup_filter, NoDup_group_keys.
    + intros k'. rewrite list_elem_of_filter, !elem_of_group_keys. split.
      * intros (r & [Hne Hr]%list_elem_of_filter & Hk). split; [congruence | eauto].
      * intros [Hne (r & Hr & Hk)]. exists r. split; [|done].
        apply list_elem_of_filter. split; [congruence | done].
Qed.

Lemma group_rows_without k k' rows :
  k' <> k ->
  Pd.group_rows key k' (filter (fun r => key r <> Some k) rows)
  = Pd.group_rows key k' rows.
Proof.
  intros Hne. unfold Pd.group_rows. rewrite list_filter_filter.
  apply list_filter_iff. intros r. split; [by intros [? ?] | intros H].
  split; [done | congruence].
Qed.

End Groups.

(** ** Round aggregator (claims C1, C5 and C7) *)

Lemma is_sentinel_iff x : is_sentinel x = true <-> (x <= -9000)%Q.
Proof. apply Qle_bool_iff. Qed.

Lemma omap_fmap {A B C} (f : B -> option C) (g : A -> B) (l : list A) :
  omap f (g <$> l) = omap (fun x => f (g x)) l.
Proof. induction l as [|x l IH]; [done|]. csimpl. by rewrite IH. Qed.

Lemma filter_fmap_iff {A B} (f : A -> B) (P : B -> Prop) (Q : A -> Prop)
    `{!forall y, Decision (P y)} `{!forall x, Decision (Q x)} (l : list A) :
  (forall x, P (f x) <-> Q x) -> filter P (f <$> l) = f <$> filter Q l.
Proof.
  intros Hiff. induction l as [|x l IH]; [done|].
  csimpl. rewrite !filter_cons, IH.
  destruct (decide (P (f x))) as [HP|HP], (decide (Q x)) as [HQ|HQ];
    try done; by apply Hiff in HP || apply Hiff in HQ.
Qed.

Lemma row_key_iff e d r : row_key r = Some (e, d) <-> in_group e d r.
Proof.
  unfold row_key, in_group.
  destruct (Row.event_name r), (Row.date r); split;
    (intros [= -> ->] || intros [[= ->] [= ->]] || intros [? ?]); done.
Qed.

Lemma group_rows_filtered e d rows :
  Pd.group_rows row_key (e, d) (filter_sentinels <$> rows)
  = filter_sentinels <$> group_of e d rows.
Proof.
  unfold Pd.group_rows, group_of. apply filter_fmap_iff.
  intros r. apply (row_key_iff e d r).
Qed.

Lemma group_keys_filtered rows :
  Pd.group_keys row_key (filter_sentinels <$> rows) = Pd.group_keys row_key rows.
Proof. unfold Pd.group_keys. by rewrite omap_fmap. Qed.

Lemma sentinel_valid (col : Row.t -> option Q) g :
  omap (fun r => sentinel (col r)) g = valid_values col g.
Proof.
  unfold valid_values. induction g as [|r g IH]; [done|].
  csimpl. unfold sentinel at 1. destruct (col r) as [x|]; [|done].
  rewrite filter_cons. unfold Qleb, is_sentinel in *.
  destruct (Qle_bool x (-9000)) eqn:Hx.
  - by rewrite decide_False.
  - rewrite decide_True by done. by rewrite IH.
Qed.

Lemma mean_filtered fl (col : Row.t -> option Q) g :
  (forall r, col (filter_sentinels r) = sentinel (col r)) ->
  Pd.mean fl (col <$> (filter_sentinels <$> g)) = float_mean fl (valid_values col g).
Proof.
  intros H. unfold Pd.mean, Pd.dropna.
  rewrite !omap_fmap.
  rewrite (list_omap_ext _ (fun r => sentinel (col r)) g g), sentinel_valid.
  - by destruct (valid_values col g).
  - apply Forall2_same_length_lookup_2; [done|]. intros i x y Hx Hy. simplify_eq. apply H.
Qed.

Lemma column_unfiltered {A} (col : Row.t -> option A) g :
  (forall r, col (filter_sentinels r) = col r) ->
  Pd.dropna (col <$> (filter_sentinels <$> g)) = omap col g.
Proof.
  intros H. unfold Pd.dropna. rewrite !omap_fmap.
  apply list_omap_ext, Forall2_same_length_lookup_2; [done|].
  intros i x y Hx Hy. simplify_eq. apply H.
Qed.

Section AggregatorProps.

Variable to_iso_date : string -> option string.
Variable fl : Float.ops.

Lemma process_records_by_key rows pid :
  process_tournament_records to_iso_date fl rows pid
  = omap (record_for to_iso_date fl pid rows) (Pd.group_keys row_key rows).
Proof.
  destruct rows as [|r0 rows]; [done|].
  unfold process_tournament_records, Pd.groupby.
  rewrite group_keys_filtered, !omap_fmap. done.
Qed.

Lemma elem_of_records rows pid r :
  r ∈ process_tournament_records to_iso_date fl rows pid <->
  exists e d, group_of e d rows <> [] /\ record_for to_iso_date fl pid rows (e, d) = Some r.
Proof.
  rewrite process_records_by_key, list_elem_of_omap. split.
  - intros ([e d] & (row & Hrow & Hk)%elem_of_group_keys & Hr).
    exists e, d. split; [|done].
    apply row_key_iff in Hk. intros Hnil.
    assert (Hin : row ∈ group_of e d rows) by (by apply list_elem_of_filter).
    rewrite Hnil in Hin. by apply elem_of_nil in Hin.
  - intros (e & d & Hne & Hr). exists (e, d). split; [|done].
    apply elem_of_group_keys.
    destruct (group_of e d rows) as [|row g] eqn:Hg; [done|].
    assert (Hin : row ∈ group_of e d rows) by (rewrite Hg; left).
    apply list_elem_of_filter in Hin as [Hk Hin].
    exists row. split; [done | by apply row_key_iff].
Qed.

End AggregatorProps.

(** C1, amended.  Every output record stands for one non-empty (event
    name, date) group of the input whose date parses.  Each of its five
    strokes-gained components is the mean, as pandas computes it, of the
    values of the group that are neither null nor at or below -9000, rounded
    by [round] to three fractional digits, and null when the group has no
    such value; its total score is the pandas sum of the non-null round
    scores of the group, as an integer.  Two rounds of the "Open" of "Jun 1,
    2024" with totals 1.2 and -9999 and scores 68 and 70 give exactly one
    record, whose strokes-gained total is the rounded mean of the one value
    1.2 and whose total score is the sum of 68 and 70: 1.2 and 138 as soon
    as the mean of the single value 1.2 is 1.2, [round] leaves 1.2 as it is
    and the sum of 68 and 70 is 138. *)
Theorem components_are_rounded_means_of_valid_values :
  (forall (to_iso : string -> option string) (fl : Float.ops) (rows : list Row.t)
          (pid : string) (r : Rec.t),
      r ∈ process_tournament_records to_iso fl rows pid ->
      exists e d,
        let g := group_of e d rows in
        g <> [] /\
        Rec.tournament_name r = e /\
        to_iso d = Some (Rec.tournament_date r) /\
        Rec.strokes_gained_total r
          = Float.round3 fl <$> float_mean fl (valid_values Row.total g) /\
        Rec.strokes_gained_off_tee r
          = Float.round3 fl <$> float_mean fl (valid_values Row.ott g) /\
        Rec.strokes_gained_approach r
          = Float.round3 fl <$> float_mean fl (valid_values Row.app g) /\
        Rec.strokes_gained_around_green r
          = Float.round3 fl <$> float_mean fl (valid_values Row.arg g) /\
        Rec.strokes_gained_putting r
          = Float.round3 fl <$> float_mean fl (valid_values Row.putt g) /\
        Rec.total_score r = Some (py_int (total_of fl Row.round_score g))) /\
  (forall (to_iso : string -> option string) (fl : Float.ops) (pid iso : string),
      to_iso "Jun 1, 2024" = Some iso ->
      exists r,
        process_tournament_records to_iso fl open_rounds pid = [r] /\
        Rec.strokes_gained_total r
          = Some (Float.round3 fl (Float.mean fl [(6 # 5)%Q])) /\
        Rec.total_score r = Some (py_int (Float.sum fl [68%Q; 70%Q])) /\
        (Float.mean fl [(6 # 5)%Q] = (6 # 5)%Q ->
         Float.round3 fl (6 # 5)%Q = (6 # 5)%Q ->
         Float.sum fl [68%Q; 70%Q] = 138%Q ->
         Rec.strokes_gained_total r = Some (6 # 5)%Q /\
         Rec.total_score r = Some 138%Z)).
Proof.
  split.
  - intros to_iso fl rows pid r (e & d & Hne & Hr)%elem_of_records.
    exists e, d. cbn zeta. split; [done|].
    unfold record_for, record_of in Hr. cbn [agg_group] in Hr.
    cbn [Agg.date Agg.event_name Agg.total Agg.ott Agg.app Agg.arg Agg.putt
         Agg.round_score Agg.course_name Agg.fin_numeric Agg.fin_text] in Hr.
    destruct (to_iso d) as [iso|]; [|done].
    injection Hr as <-. cbn [Rec.tournament_name Rec.tournament_date
      Rec.strokes_gained_total Rec.strokes_gained_off_tee
      Rec.strokes_gained_approach Rec.strokes_gained_around_green
      Rec.strokes_gained_putting Rec.total_score].
    rewrite group_rows_filtered, !mean_filtered by done.
    unfold Pd.sum. rewrite column_unfiltered by done.
    repeat split; try done;
      by destruct (float_mean _ _).
  - intros to_iso fl pid iso Hiso.
    assert (Hout : exists r,
      process_tournament_records to_iso fl open_rounds pid = [r] /\
      Rec.strokes_gained_total r
        = Some (Float.round3 fl (Float.mean fl [(6 # 5)%Q])) /\
      Rec.total_score r = Some (py_int (Float.sum fl [68%Q; 70%Q]))).
    { rewrite process_records_by_key.
      assert (Hk : Pd.group_keys row_key open_rounds = [("Open", "Jun 1, 2024")])
        by (by vm_compute).
      rewrite Hk. clear Hk.
      assert (Hr : exists r,
        record_for to_iso fl pid open_rounds ("Open", "Jun 1, 2024") = Some r /\
        Rec.strokes_gained_total r
          = Some (Float.round3 fl (Float.mean fl [(6 # 5)%Q])) /\
        Rec.total_score r = Some (py_int (Float.sum fl [68%Q; 70%Q]))).
      { unfold record_for, record_of. cbn [agg_group Agg.date]. rewrite Hiso.
        eexists. split; [reflexivity|]. by vm_compute. }
      destruct Hr as (r & Hr & H1 & H2). exists r. csimpl. by rewrite Hr. }
    destruct Hout as (r & Hr & Ht & Hs). exists r.
    split; [done|]. split; [done|]. split; [done|].
    intros Hm Hr3 Hsum. rewrite Ht, Hs, Hm, Hr3, Hsum. done.
Qed.

Lemma components_are_rounded_means_of_valid_values_witness :
  exists e d,
    let g := group_of e d open_rounds in
    g <> [] /\
    Rec.tournament_name (open_record_of "p1") = e /\
    Datetime.to_iso_date d = Some (Rec.tournament_date (open_record_of "p1")) /\
    Rec.strokes_gained_total (open_record_of "p1")
      = Float.round3 exact_arithmetic
          <$> float_mean exact_arithmetic (valid_values Row.total g) /\
    Rec.strokes_gained_off_tee (open_record_of "p1")
      = Float.round3 exact_arithmetic
          <$> float_mean exact_arithmetic (valid_values Row.ott g) /\
    Rec.strokes_gained_approach (open_record_of "p1")
      = Float.round3 exact_arithmetic
          <$> float_mean exact_arithmetic (valid_values Row.app g) /\
    Rec.strokes_gained_around_green (open_record_of "p1")
      = Float.round3 exact_arithmetic
          <$> float_mean exact_arithmetic (valid_values Row.arg g) /\
    Rec.strokes_gained_putting (open_record_of "p1")
      = Float.round3 exact_arithmetic
          <$> float_mean exact_arithmetic (valid_values Row.putt g) /\
    Rec.total_score (open_record_of "p1")
      = Some (py_int (total_of exact_arithmetic Row.round_score g)).
Proof.
  apply (proj1 components_are_rounded_means_of_valid_values
           Datetime.to_iso_date exact_arithmetic open_rounds "p1" (open_record_of "p1")).
  vm_compute. constructor.
Defined.

(** C1 as stated fails where the mean has more than three fractional
    digits.  Two rounds with totals 1.25 and 1.3125, neither a sentinel,
    have the mean 1.28125, and the record carries 1.281.  The three numbers
    are binary fractions, on which the float sum and the division by two
    are exact, and 1.28125 is no tie of the rounding. *)
Lemma component_differs_from_mean :
  float_mean exact_arithmetic
    (valid_values Row.total (group_of "Open" "Jun 1, 2024" binary_rounds))
    = Some (41 # 32)%Q /\
  Rec.strokes_gained_total
    <$> process_tournament_records Datetime.to_iso_date exact_arithmetic
          binary_rounds "p1"
    = [Some (1281 # 1000)%Q] /\
  ~ (1281 # 1000 == 41 # 32)%Q.
Proof. split; [by vm_compute | split; [by vm_compute | done]]. Qed.

Lemma omap_drop_key {K B} `{EqDecision K} (f f' : K -> option B) (k : K) (l : list K) :
  f k = None ->
  (forall k', k' <> k -> f' k' = f k') ->
  omap f' (filter (fun k' => k' <> k) l) = omap f l.
Proof.
  intros Hk Hf. induction l as [|x l IH]; [done|].
  rewrite filter_cons. csimpl. destruct (decide (x <> k)) as [Hx|Hx].
  - csimpl. rewrite Hf, IH by done. done.
  - apply dec_stable in Hx as ->. by rewrite Hk.
Qed.

(** C7.  When the scraped date [d] of a group does not parse, the output is
    the output for the input without the rows of that group: the group
    gives no record, nothing is raised, and the records of all other groups
    are the same.  A group whose date parses does give a record. *)
Theorem unparsable_date_drops_its_group_only :
  forall (to_iso : string -> option string) (fl : Float.ops) (rows : list Row.t)
         (pid e d : string),
    to_iso d = None ->
    process_tournament_records to_iso fl rows pid
    = process_tournament_records to_iso fl
        (filter (fun r => ~ in_group e d r) rows) pid /\
    (forall e' d' iso,
        group_of e' d' rows <> [] -> to_iso d' = Some iso ->
        exists r, r ∈ process_tournament_records to_iso fl rows pid /\
                  Rec.tournament_name r = e' /\ Rec.tournament_date r = iso).
Proof.
  intros to_iso fl rows pid e d Hd. split.
  - rewrite (list_filter_iff _ (fun r => row_key r <> Some (e, d))).
    2:{ intros r. by rewrite row_key_iff. }
    rewrite !process_records_by_key, group_keys_without.
    symmetry. apply omap_drop_key.
    + unfold record_for, record_of. cbn. by rewrite Hd.
    + intros [e' d'] Hne. unfold record_for. do 2 f_equal.
      assert (Hf : filter_sentinels <$> filter (fun r => row_key r <> Some (e, d)) rows
                   = filter (fun r => row_key r <> Some (e, d)) (filter_sentinels <$> rows)).
      { symmetry. by apply filter_fmap_iff. }
      rewrite Hf. f_equal. by apply group_rows_without.
  - intros e' d' iso Hne Hiso.
    destruct (record_for to_iso fl pid rows (e', d')) as [r|] eqn:Hr.
    + exists r. split; [apply elem_of_records; eauto|].
      unfold record_for, record_of in Hr. cbn in Hr. rewrite Hiso in Hr.
      by injection Hr as <-.
    + unfold record_for, record_of in Hr. cbn in Hr. by rewrite Hiso in Hr.
Qed.

Lemma unparsable_date_drops_its_group_only_witness :
  process_tournament_records Datetime.to_iso_date exact_arithmetic mixed_rounds "p1"
  = process_tournament_records Datetime.to_iso_date exact_arithmetic
      (filter (fun r => ~ in_group "Masters" "2024-04-11" r) mixed_rounds) "p1" /\
  (forall e' d' iso,
      group_of e' d' mixed_rounds <> [] -> Datetime.to_iso_date d' = Some iso ->
      exists r,
        r ∈ process_tournament_records Datetime.to_iso_date exact_arithmetic
              mixed_rounds "p1" /\
                Rec.tournament_name r = e' /\ Rec.tournament_date r = iso).
Proof.
  apply (unparsable_date_drops_its_group_only
           Datetime.to_iso_date exact_arithmetic mixed_rounds "p1" "Masters" "2024-04-11").
  reflexivity.
Defined.





(** ** Skill snapshot builder (claim C6) *)

Lemma foldl_insert_lookup (f : Skill.t -> json) (skills : list Skill.t)
    (m0 : gmap string json) (k : string) :
  foldl (fun m s => <[Skill.bin s := f s]> m) m0 skills !! k
  = match category k skills with
    | Some s => Some (f s)
    | None => m0 !! k
    end.
Proof.
  revert m0. induction skills as [|s skills IH]; intros m0; [done|].
  cbn [foldl]. rewrite IH. unfold category in *. rewrite filter_cons.
  destruct (decide (Skill.bin s = k)) as [<-|Hne].
  - rewrite last_cons.
    destruct (list.last (filter _ skills)); [done|].
    by rewrite lookup_insert_eq.
  - destruct (list.last (filter _ skills)); [done|].
    by rewrite lookup_insert_ne.
Qed.

Lemma get_dict_of (f : Skill.t -> json) skills k :
  get (dict_of f skills) k = from_option f JNull (category k skills).
Proof.
  unfold get, dict_of. rewrite foldl_insert_lookup.
  by destruct (category k skills).
Qed.

(** C6, amended.  For a payload with at least one category record,
    [process_skills] returns a snapshot in which every percentile field
    holds the percentile of its category in the fixed table and every one of
    the four strokes-gained fields holds the value of its category with
    every plus sign removed, parsed as a float and rounded by [round] to
    three fractional digits.  A field whose category is missing is null, and
    so is a strokes-gained field whose value does not parse; no field is
    left out.  A payload without the "putting" category has
    [putting_overall] and [sg_putting] null.  A payload without any category
    record, and a missing payload, give no snapshot. *)
Theorem process_skills_fields :
  (forall (float_of_str : string -> option pyfloat) (fl : Float.ops)
          (rd : Reload.t) (now : string),
      Reload.break_skills rd <> [] ->
      exists snap,
        let skills := Reload.break_skills rd in
        process_skills float_of_str fl (Some rd) now = Some snap /\
        (forall f k, (f, k) ∈ percentile_fields -> f snap = percentile_of k skills) /\
        (forall g k, (g, k) ∈ sg_fields ->
           g snap = sg float_of_str fl (value_of k skills)) /\
        (forall g k s, (g, k) ∈ sg_fields -> value_of k skills = JStr s ->
           g snap = round3f fl <$> float_of_str (Py.remove_char plus s)) /\
        (forall f k, (f, k) ∈ percentile_fields -> category k skills = None ->
           f snap = JNull) /\
        (forall g k, (g, k) ∈ sg_fields -> category k skills = None ->
           g snap = None) /\
        (forall g k s, (g, k) ∈ sg_fields -> value_of k skills = JStr s ->
           float_of_str (Py.remove_char plus s) = None -> g snap = None) /\
        (category "putting" skills = None ->
           Snap.putting_overall snap = JNull /\ Snap.sg_putting snap = None)) /\
  (forall (float_of_str : string -> option pyfloat) (fl : Float.ops)
          (rd : Reload.t) (now : string),
      Reload.break_skills rd = [] ->
      process_skills float_of_str fl (Some rd) now = None) /\
  (forall (float_of_str : string -> option pyfloat) (fl : Float.ops) (now : string),
      process_skills float_of_str fl None now = None).
Proof.
  split; [|split].
  2:{ intros float_of_str fl rd now H. unfold process_skills. by rewrite H. }
  2:{ done. }
  intros float_of_str fl rd now Hne.
  destruct (Reload.break_skills rd) as [|s0 rest] eqn:Hsk; [done|].
  eexists. cbn zeta. split.
  { unfold process_skills. rewrite Hsk. reflexivity. }
  set (snap := Snap.Build_t _ _ _ _ _ _ _ _ _ _ _ _ _ _ _ _ _ _ _ _ _ _).
  assert (Hperc : forall f k, (f, k) ∈ percentile_fields ->
                              f snap = percentile_of k (s0 :: rest)).
  { intros f k H. unfold percentile_fields in H.
    repeat (apply elem_of_cons in H as [[= -> ->]|H]; [apply get_dict_of|]).
    by apply elem_of_nil in H. }
  assert (Hsg : forall g k, (g, k) ∈ sg_fields ->
                            g snap = sg float_of_str fl (value_of k (s0 :: rest))).
  { intros g k H. unfold sg_fields in H.
    repeat (apply elem_of_cons in H as [[= -> ->]|H];
            [cbn [snap Snap.sg_driving Snap.sg_approach Snap.sg_around_green
                  Snap.sg_putting]; f_equal; apply get_dict_of|]).
    by apply elem_of_nil in H. }
  split; [exact Hperc|]. split; [exact Hsg|].
  split. { intros g k s H Hv. by rewrite (Hsg g k H), Hv. }
  split. { intros f k H Hc. rewrite (Hperc f k H). unfold percentile_of. by rewrite Hc. }
  split. { intros g k H Hc. rewrite (Hsg g k H). unfold value_of. by rewrite Hc. }
  split. { intros g k s H Hv Hf. rewrite (Hsg g k H), Hv. cbn [sg]. by rewrite Hf. }
  intros Hc. split.
  - rewrite (Hperc Snap.putting_overall "putting").
    + unfold percentile_of. by rewrite Hc.
    + unfold percentile_fields. rewrite !elem_of_cons. tauto.
  - rewrite (Hsg Snap.sg_putting "putting").
    + unfold value_of. by rewrite Hc.
    + unfold sg_fields. rewrite !elem_of_cons. tauto.
Qed.

Lemma process_skills_fields_witness :
  exists snap,
    let skills := Reload.break_skills skills_without_putting in
    process_skills Decimal.float_of_str exact_arithmetic (Some skills_without_putting)
      "2026-01-26T08:00:00"
      = Some snap /\
    (forall f k, (f, k) ∈ percentile_fields -> f snap = percentile_of k skills) /\
    (forall g k, (g, k) ∈ sg_fields ->
       g snap = sg Decimal.float_of_str exact_arithmetic (value_of k skills)) /\
    (forall g k s, (g, k) ∈ sg_fields -> value_of k skills = JStr s ->
       g snap = round3f exact_arithmetic <$> Decimal.float_of_str (Py.remove_char plus s)) /\
    (forall f k, (f, k) ∈ percentile_fields -> category k skills = None ->
       f snap = JNull) /\
    (forall g k, (g, k) ∈ sg_fields -> category k skills = None ->
       g snap = None) /\
    (forall g k s, (g, k) ∈ sg_fields -> value_of k skills = JStr s ->
       Decimal.float_of_str (Py.remove_char plus s) = None -> g snap = None) /\
    (category "putting" skills = None ->
       Snap.putting_overall snap = JNull /\ Snap.sg_putting snap = None).
Proof.
  apply (proj1 process_skills_fields Decimal.float_of_str exact_arithmetic
           skills_without_putting "2026-01-26T08:00:00").
  discriminate.
Defined.

(** C6 as stated fails in two places.  A value with a plus sign that is not
    leading, ["1+5"], is no decimal once a leading plus sign is stripped,
    yet the snapshot carries 15.0, because every plus sign is removed.  And
    a payload without any category record gives no snapshot, so none of its
    fields is present. *)
Lemma inner_plus_sign_is_removed :
  Decimal.float_of_str (strip_leading_plus "1+5") = None /\
  Snap.sg_putting
    <$> process_skills Decimal.float_of_str exact_arithmetic (Some skills_inner_plus)
          "2026-01-26T08:00:00"
    = Some (Some (Finite 15)) /\
  process_skills Decimal.float_of_str exact_arithmetic
    (Some {| Reload.dg_id := JNum 12; Reload.break_skills := [] |}) "2026-01-26T08:00:00"
    = None.
Proof. by vm_compute. Qed.

(** ** The player loop (claims C3, C9 and C4) *)

(** C9, amended.  When the keyed upsert raises an exception whose message
    does not contain "on_conflict" in any letter case, the block sends no
    other write, leaves the table as it was and still increments
    [tourn_ok].  A run over one player whose only write fails with
    "connection timed out" prints 1 updated tournament record while the
    table stays empty. *)
Theorem tourn_ok_counts_failed_write :
  (forall (E : env) (i : nat) (records : list Rec.t) (s : run) (msg : string),
      records <> [] ->
      keyed_error E i = Some msg ->
      Py.contains "on_conflict" (Py.lower msg) = false ->
      let out := write_records E i records s in
      out.2 = None /\
      log out.1 = log s ++ [KeyedUpsert records (Some msg)] /\
      db out.1 = db s /\
      tourn_ok out.1 = S (tourn_ok s) /\
      skills_ok out.1 = skills_ok s) /\
  main (env_with (fun _ => Some "connection timed out") (fun _ => None))
       ["Tiger Woods"] empty_store
  = (empty_store,
     [KeyedUpsert [open_record_of "p1"] (Some "connection timed out")],
     Summary 1 0).
Proof.
  split; [|by vm_compute].
  intros E i records s msg Hne Hk Hc. unfold write_records.
  destruct records as [|r records]; [done|].
  rewrite Hk, Hc. done.
Qed.

Lemma tourn_ok_counts_failed_write_witness :
  let E := env_with (fun _ => Some "connection timed out") (fun _ => None) in
  let s := {| db := empty_store; tourn_ok := 0; skills_ok := 0; log := [] |} in
  let out := write_records E 0 [open_record_of "p1"] s in
  out.2 = None /\
  log out.1 = log s ++ [KeyedUpsert [open_record_of "p1"] (Some "connection timed out")] /\
  db out.1 = db s /\
  tourn_ok out.1 = S (tourn_ok s) /\
  skills_ok out.1 = skills_ok s.
Proof.
  apply (proj1 tourn_ok_counts_failed_write
           (env_with (fun _ => Some "connection timed out") (fun _ => None)) 0
           [open_record_of "p1"]
           {| db := empty_store; tourn_ok := 0; skills_ok := 0; log := [] |}
           "connection timed out");
    [discriminate | reflexivity | reflexivity].
Defined.

(** C9 as stated fails on a message that has the words in capitals: it does
    not contain the substring "on_conflict", yet line 383 lowers the message
    before the test, the upsert without a key is sent, and when the store
    accepts it the row is written and rightly counted. *)
Lemma capital_message_is_retried :
  Py.contains "on_conflict" "no ON_CONFLICT target" = false /\
  main (env_with (fun _ => Some "no ON_CONFLICT target") (fun _ => None))
       ["Tiger Woods"] empty_store
  = ({| Db.results := {[ Db.key_of (open_record_of "p1") := open_record_of "p1" ]};
        Db.profiles := ∅ |},
     [KeyedUpsert [open_record_of "p1"] (Some "no ON_CONFLICT target");
      PlainUpsert [open_record_of "p1"] None],
     Summary 1 0).
Proof. by vm_compute. Qed.

(** C3, amended.  When the keyed upsert raises an exception whose message
    contains "on_conflict" (letter case ignored), the block sends exactly
    one more write, the upsert without a uniqueness key.  When that one
    raises too, its exception leaves the loop: the counters and the store
    stay as they were, no later player is processed, and [main] ends with
    the exception instead of the summary. *)
Theorem failed_upsert_retried_once_then_fatal :
  (forall (E : env) (i : nat) (records : list Rec.t) (s : run) (msg : string),
      records <> [] ->
      keyed_error E i = Some msg ->
      Py.contains "on_conflict" (Py.lower msg) = true ->
      log (write_records E i records s).1
      = log s ++ [KeyedUpsert records (Some msg);
                  PlainUpsert records (plain_error E i)]) /\
  (forall (E : env) (i : nat) (n : string) (rest : list string) (s : run)
          (pid : string) (data : scraped) (msg msg2 : string),
      get_player_id (registry E) n = Py.Ret (Some pid) ->
      pid <> "" ->
      scrape_player E n = Some data ->
      let records :=
        process_tournament_records (to_iso_date E) (float_ops E) (new_data data) pid in
      records <> [] ->
      keyed_error E i = Some msg ->
      Py.contains "on_conflict" (Py.lower msg) = true ->
      plain_error E i = Some msg2 ->
      player_loop E i (n :: rest) s
      = (emit (PlainUpsert records (Some msg2))
           (emit (KeyedUpsert records (Some msg)) s),
         Some (Py.StoreError msg2))) /\
  (forall (E : env) (players : list string) (store : Db.t) (s : run) (e : Py.exn),
      player_loop E 0 players
        {| db := store; tourn_ok := 0; skills_ok := 0; log := [] |} = (s, Some e) ->
      main E players store = (db s, log s, Uncaught e)).
Proof.
  split; [|split].
  - intros E i records s msg Hne Hk Hc. unfold write_records.
    destruct records as [|r records]; [done|].
    rewrite Hk, Hc. destruct (plain_error E i); cbn; by rewrite <- app_assoc.
  - intros E i n rest s pid data msg msg2 Hid Hpid Hscrape records Hne Hk Hc Hp.
    cbn [player_loop]. unfold iteration. rewrite Hid.
    destruct (String.eqb_spec pid "") as [->|_]; [done|].
    rewrite Hscrape. fold records. unfold write_records.
    destruct records as [|r records']; [done|].
    by rewrite Hk, Hc, Hp.
  - intros E players store s e H. unfold main. by rewrite H.
Qed.

Lemma failed_upsert_retried_once_then_fatal_witness :
  log (write_records env_conflict 0 [open_record_of "p1"]
         {| db := empty_store; tourn_ok := 0; skills_ok := 0; log := [] |}).1
  = [] ++ [KeyedUpsert [open_record_of "p1"] (Some "no constraint for on_conflict");
           PlainUpsert [open_record_of "p1"] (plain_error env_conflict 0)].
Proof.
  apply (proj1 failed_upsert_retried_once_then_fatal env_conflict 0
           [open_record_of "p1"]
           {| db := empty_store; tourn_ok := 0; skills_ok := 0; log := [] |}
           "no constraint for on_conflict");
    [discriminate | reflexivity | reflexivity].
Defined.

(** C3 as stated fails twice.  When both writes of the first player fail,
    the second player, whose record the store would accept, is never
    processed and the run ends with the exception.  And a first failure
    whose message does not mention "on_conflict" is not retried at all. *)
Lemma second_failure_ends_the_run :
  main env_conflict ["Tiger Woods"; "Rory McIlroy"] empty_store
  = (empty_store,
     [KeyedUpsert [open_record_of "p1"] (Some "no constraint for on_conflict");
      PlainUpsert [open_record_of "p1"] (Some "duplicate key")],
     Uncaught (Py.StoreError "duplicate key")) /\
  (player_loop env_conflict 1 ["Rory McIlroy"]
     {| db := empty_store; tourn_ok := 0; skills_ok := 0; log := [] |}).1
  = {| db := {| Db.results := {[ Db.key_of (open_record_of "p2") := open_record_of "p2" ]};
                Db.profiles := ∅ |};
       tourn_ok := 1; skills_ok := 0;
       log := [KeyedUpsert [open_record_of "p2"] None] |} /\
  (main (env_with (fun _ => Some "connection timed out") (fun _ => None))
        ["Tiger Woods"] empty_store).1.2
  = [KeyedUpsert [open_record_of "p1"] (Some "connection timed out")].
Proof. by vm_compute. Qed.

(** *** Re-running on the same fetched data *)

Lemma upsert_keyed_union records tbl :
  Db.upsert_keyed records tbl = Db.upsert_keyed records ∅ ∪ tbl.
Proof.
  unfold Db.upsert_keyed. revert tbl.
  induction records as [|r records IH]; intros tbl; cbn [foldl].
  - by rewrite (left_id_L ∅ (∪)).
  - rewrite IH, (IH (<[_ := _]> ∅)).
    rewrite (insert_union_singleton_l tbl), insert_empty.
    by rewrite (assoc_L (∪)).
Qed.

Lemma erase_clock_process_skills f fl rd now1 now2 :
  erase_clock <$> process_skills f fl rd now1 = erase_clock <$> process_skills f fl rd now2.
Proof.
  unfold process_skills. destruct rd as [rd|]; [|done].
  by destruct (Reload.break_skills rd).
Qed.

Section Rerun.

Variable h : Snap.t -> Snap.t.

Lemma adds_refl s : adds h ∅ ∅ s s.
Proof. split; by rewrite (left_id_L ∅ (∪)). Qed.

Lemma adds_trans W1 P1 W2 P2 s o o' :
  adds h W1 P1 s o -> adds h W2 P2 o o' -> adds h (W2 ∪ W1) (P2 ∪ P1) s o'.
Proof.
  intros [H1 H2] [H3 H4]. split.
  - by rewrite H3, H1, (assoc_L (∪)).
  - by rewrite H4, H2, (assoc_L (∪)).
Qed.

Lemma write_records_adds E i records s :
  keyed_error E i = None ->
  (write_records E i records s).2 = None /\
  adds h (Db.upsert_keyed records ∅) ∅ s (write_records E i records s).1.
Proof.
  intros Hk. unfold write_records. destruct records as [|r records].
  - split; [done | apply adds_refl].
  - rewrite Hk. split; [done|]. split; cbn.
    + apply (upsert_keyed_union (r :: records)).
    + by rewrite (left_id_L ∅ (∪)).
Qed.

Lemma write_skills_adds E i pid sk s :
  update_error E i = None ->
  (write_skills E i pid sk s).2 = None /\
  adds h ∅ (from_option (fun x => {[pid := h x]}) ∅ sk) s (write_skills E i pid sk s).1.
Proof.
  intros Hu. unfold write_skills. destruct sk as [x|].
  - rewrite Hu. split; [done|]. split; cbn.
    + by rewrite (left_id_L ∅ (∪)).
    + unfold Db.update_skills. by rewrite fmap_insert, insert_union_singleton_l.
  - split; [done | apply adds_refl].
Qed.

Variables E1 E2 : env.
Hypothesis Hfetch : same_fetch E1 E2.
Hypothesis Hok1 : writes_succeed E1.
Hypothesis Hok2 : writes_succeed E2.
Hypothesis Hclock :
  forall f fl rd i,
    h <$> process_skills f fl rd (utcnow E1 i) = h <$> process_skills f fl rd (utcnow E2 i).

Lemma iteration_adds i n :
  exists W P e,
    (forall s, (iteration E1 i n s).2 = e /\ adds h W P s (iteration E1 i n s).1) /\
    (forall s, (iteration E2 i n s).2 = e /\ adds h W P s (iteration E2 i n s).1).
Proof.
  destruct Hfetch as (Hreg & Hscrape & Hiso & Hfloat & Hops).
  destruct (Hok1 i) as [Hk1 Hu1], (Hok2 i) as [Hk2 Hu2].
  unfold iteration. rewrite <- Hreg, <- Hscrape, <- Hiso, <- Hfloat, <- Hops.
  destruct (get_player_id (registry E1) n) as [[pid|]|e].
  2:{ exists ∅, ∅, None. split; intros s; (split; [done | apply adds_refl]). }
  2:{ exists ∅, ∅, (Some e). split; intros s; (split; [done | apply adds_refl]). }
  destruct (String.eqb pid "").
  { exists ∅, ∅, None. split; intros s; (split; [done | apply adds_refl]). }
  destruct (scrape_player E1 n) as [data|].
  2:{ exists ∅, ∅, None. split; intros s; (split; [done | apply adds_refl]). }
  set (records := process_tournament_records (to_iso_date E1) (float_ops E1)
                    (new_data data) pid).
  pose proof (Hclock (float_of_str E1) (float_ops E1) (reload_data data) i) as Hsk.
  destruct (process_skills (float_of_str E1) (float_ops E1) (reload_data data) (utcnow E1 i))
    as [sk1|] eqn:H1,
           (process_skills (float_of_str E1) (float_ops E1) (reload_data data) (utcnow E2 i))
    as [sk2|] eqn:H2;
    try discriminate.
  - injection Hsk as Hsk.
    exists (∅ ∪ Db.upsert_keyed records ∅), ({[pid := h sk1]} ∪ ∅), None.
    split; intros s.
    + destruct (write_records_adds E1 i records s Hk1) as [He Ha].
      destruct (write_records E1 i records s) as [s1 e1]. cbn in He, Ha. subst e1.
      destruct (write_skills_adds E1 i pid (Some sk1) s1 Hu1) as [He' Ha'].
      split; [done|]. by apply (adds_trans _ _ _ _ s s1).
    + destruct (write_records_adds E2 i records s Hk2) as [He Ha].
      destruct (write_records E2 i records s) as [s1 e1]. cbn in He, Ha. subst e1.
      destruct (write_skills_adds E2 i pid (Some sk2) s1 Hu2) as [He' Ha'].
      split; [done|]. rewrite Hsk. by apply (adds_trans _ _ _ _ s s1).
  - exists (∅ ∪ Db.upsert_keyed records ∅), (∅ ∪ ∅), None.
    split; intros s.
    + destruct (write_records_adds E1 i records s Hk1) as [He Ha].
      destruct (write_records E1 i records s) as [s1 e1]. cbn in He, Ha. subst e1.
      destruct (write_skills_adds E1 i pid None s1 Hu1) as [He' Ha'].
      split; [done|]. by apply (adds_trans _ _ _ _ s s1).
    + destruct (write_records_adds E2 i records s Hk2) as [He Ha].
      destruct (write_records E2 i records s) as [s1 e1]. cbn in He, Ha. subst e1.
      destruct (write_skills_adds E2 i pid None s1 Hu2) as [He' Ha'].
      split; [done|]. by apply (adds_trans _ _ _ _ s s1).
Qed.

Lemma player_loop_adds players :
  forall i, exists W P e,
    (forall s, (player_loop E1 i players s).2 = e /\ adds h W P s (player_loop E1 i players s).1) /\
    (forall s, (player_loop E2 i players s).2 = e /\ adds h W P s (player_loop E2 i players s).1).
Proof.
  induction players as [|n rest IH]; intros i.
  - exists ∅, ∅, None. split; intros s; (split; [done | apply adds_refl]).
  - destruct (iteration_adds i n) as (W1 & P1 & e1 & H1 & H2).
    destruct e1 as [e|].
    + exists W1, P1, (Some e). split; intros s; cbn [player_loop].
      * destruct (H1 s) as [He Ha]. destruct (iteration E1 i n s) as [s1 e1].
        cbn in He. by subst e1.
      * destruct (H2 s) as [He Ha]. destruct (iteration E2 i n s) as [s1 e1].
        cbn in He. by subst e1.
    + destruct (IH (S i)) as (W2 & P2 & e2 & H3 & H4).
      exists (W2 ∪ W1), (P2 ∪ P1), e2. split; intros s; cbn [player_loop].
      * destruct (H1 s) as [He Ha]. destruct (iteration E1 i n s) as [s1 e1].
        cbn in He, Ha. subst e1. destruct (H3 s1) as [He' Ha'].
        split; [done|]. by apply (adds_trans _ _ _ _ s s1).
      * destruct (H2 s) as [He Ha]. destruct (iteration E2 i n s) as [s1 e1].
        cbn in He, Ha. subst e1. destruct (H4 s1) as [He' Ha'].
        split; [done|]. by apply (adds_trans _ _ _ _ s s1).
Qed.

Lemma store_after_loop E players store :
  store_after E players store
  = db (player_loop E 0 players
          {| db := store; tourn_ok := 0; skills_ok := 0; log := [] |}).1.
Proof.
  unfold store_after, main. by destruct (player_loop _ _ _ _) as [s [e|]].
Qed.

(** The second of two runs leaves the tournament table as the first run
    left it, and the snapshots too, as far as [h] shows them. *)
Lemma rerun_fixpoint players store :
  let db1 := store_after E1 players store in
  let db2 := store_after E2 players db1 in
  Db.results db2 = Db.results db1 /\
  h <$> Db.profiles db2 = h <$> Db.profiles db1.
Proof.
  cbn zeta. rewrite !store_after_loop.
  destruct (player_loop_adds players 0) as (W & P & e & H1 & H2).
  set (s0 := {| db := store; tourn_ok := 0; skills_ok := 0; log := [] |}).
  destruct (H1 s0) as [_ [Hr1 Hp1]].
  set (s1 := {| db := db (player_loop E1 0 players s0).1;
                tourn_ok := 0; skills_ok := 0; log := [] |}).
  destruct (H2 s1) as [_ [Hr2 Hp2]]. cbn [db s1] in Hr2, Hp2.
  split.
  - by rewrite Hr2, Hr1, (assoc_L (∪)), (idemp_L (∪)).
  - by rewrite Hp2, Hp1, (assoc_L (∪)), (idemp_L (∪)).
Qed.

End Rerun.

(** C4, amended.  Take two runs over the same player list that see the same
    registry and fetch the same data, with every keyed upsert and every
    skills update accepted by the store, the second run starting from the
    store the first one left.  The second run leaves the same tournament
    results, row for row, and the same skill snapshots except for their
    [skills_updated_at], which is the clock reading of the run that wrote
    them; when both runs read the same clock values the whole store is the
    same. *)
Theorem rerun_keeps_results_and_skills :
  forall (E1 E2 : env) (players : list string) (store : Db.t),
    same_fetch E1 E2 ->
    writes_succeed E1 ->
    writes_succeed E2 ->
    let db1 := store_after E1 players store in
    let db2 := store_after E2 players db1 in
    Db.results db2 = Db.results db1 /\
    erase_clock <$> Db.profiles db2 = erase_clock <$> Db.profiles db1 /\
    (utcnow E2 = utcnow E1 -> db2 = db1).
Proof.
  intros E1 E2 players store Hfetch Hok1 Hok2. cbn zeta.
  destruct (rerun_fixpoint erase_clock E1 E2 Hfetch Hok1 Hok2
              (fun f fl rd i => erase_clock_process_skills f fl rd _ _) players store)
    as [Hr Hp].
  split; [done|]. split; [done|].
  intros Hclock.
  destruct (rerun_fixpoint Datatypes.id E1 E2 Hfetch Hok1 Hok2) with (players := players)
    (store := store) as [Hr' Hp'].
  { intros f fl rd i. by rewrite Hclock. }
  rewrite !map_fmap_id in Hp'.
  destruct (store_after E2 players (store_after E1 players store)) as [r2 p2],
           (store_after E1 players store) as [r1 p1].
  cbn in Hr', Hp'. by subst.
Qed.

Lemma rerun_keeps_results_and_skills_witness :
  let E1 := env_at "2026-01-26T08:00:00" in
  let E2 := env_at "2026-02-02T08:00:00" in
  let db1 := store_after E1 ["Tiger Woods"; "Rory McIlroy"] empty_store in
  let db2 := store_after E2 ["Tiger Woods"; "Rory McIlroy"] db1 in
  Db.results db2 = Db.results db1 /\
  erase_clock <$> Db.profiles db2 = erase_clock <$> Db.profiles db1 /\
  (utcnow E2 = utcnow E1 -> db2 = db1).
Proof.
  apply (rerun_keeps_results_and_skills
           (env_at "2026-01-26T08:00:00") (env_at "2026-02-02T08:00:00")
           ["Tiger Woods"; "Rory McIlroy"] empty_store).
  - repeat split; reflexivity.
  - intros i. split; reflexivity.
  - intros i. split; reflexivity.
Defined.

(** C4 as stated fails for the skill snapshots: [process_skills] reads the
    clock, so the same payload gives different snapshots at different
    times, and a second run a week later stores a snapshot that differs from
    the one the first run stored. *)
Lemma rerun_changes_snapshot_timestamp :
  process_skills Decimal.float_of_str exact_arithmetic (Some skills_without_putting)
    "2026-01-26T08:00:00"
  <> process_skills Decimal.float_of_str exact_arithmetic (Some skills_without_putting)
       "2026-02-02T08:00:00" /\
  let db1 := store_after (env_at "2026-01-26T08:00:00") ["Tiger Woods"] empty_store in
  let db2 := store_after (env_at "2026-02-02T08:00:00") ["Tiger Woods"] db1 in
  Snap.skills_updated_at <$> Db.profiles db1 !! "p1" = Some "2026-01-26T08:00:00" /\
  Snap.skills_updated_at <$> Db.profiles db2 !! "p1" = Some "2026-02-02T08:00:00" /\
  Db.profiles db2 <> Db.profiles db1.
Proof.
  split; [by vm_compute|]. cbn zeta.
  assert (H1 : Snap.skills_updated_at <$>
                 Db.profiles (store_after (env_at "2026-01-26T08:00:00")
                                ["Tiger Woods"] empty_store) !! "p1"
               = Some "2026-01-26T08:00:00") by (by vm_compute).
  assert (H2 : Snap.skills_updated_at <$>
                 Db.profiles (store_after (env_at "2026-02-02T08:00:00") ["Tiger Woods"]
                                (store_after (env_at "2026-01-26T08:00:00")
                                   ["Tiger Woods"] empty_store)) !! "p1"
               = Some "2026-02-02T08:00:00") by (by vm_compute).
  split; [done|]. split; [done|].
  intros Heq. rewrite Heq, H1 in H2. discriminate.
Qed.

(** * Further properties *)

(** ** Names handed to the loop *)

Lemma lstrip_head s c r : Py.lstrip s = String c r -> Py.is_space c = false.
Proof.
  induction s as [|a s IH]; cbn [Py.lstrip]; [done|].
  destruct (Py.is_space a) eqn:Ha; [done|]. by intros [= <- _].
Qed.

Lemma has_char_head c r : Py.has_char c (String c r) = true.
Proof. cbn [Py.has_char]. by rewrite Ascii.eqb_refl. Qed.

Lemma strip_has_token s : Py.strip s <> "" -> Py.split (Py.strip s) <> [].
Proof.
  unfold Py.strip. destruct (Py.lstrip (Py.rstrip s)) as [|c r] eqn:Hs; [done|].
  intros _. apply (split_nonempty _ c); [apply has_char_head|].
  by apply lstrip_head in Hs.
Qed.

Lemma alias_cases n :
  alias n = n \/
  alias n ∈ ["Nico Echavarria"; "Matti Schmid"; "Erik van Rooyen"].
Proof.
  unfold alias. destruct (NAME_ALIASES !! n) as [v|] eqn:Hn; [right | by left].
  apply elem_of_list_to_map_2 in Hn. cbn [default].
  repeat (apply elem_of_cons in Hn as [[= _ ->]|Hn];
          [rewrite !elem_of_cons; tauto|]).
  by apply elem_of_nil in Hn.
Qed.

Lemma alias_has_token n : Py.split n <> [] -> Py.split (alias n) <> [].
Proof.
  intros Hn. destruct (alias_cases n) as [->|H]; [done|].
  repeat (apply elem_of_cons in H as [->|H]; [by vm_compute|]).
  by apply elem_of_nil in H.
Qed.

Lemma alias_stable n : alias (alias n) = alias n.
Proof.
  destruct (alias_cases n) as [Hn|H]; [by rewrite !Hn|].
  repeat (apply elem_of_cons in H as [->|H]; [by vm_compute|]).
  by apply elem_of_nil in H.
Qed.

Lemma split_nil_empty n : Py.split n <> [] -> n <> "".
Proof. by intros H ->. Qed.

Lemma field_file_lines_names i lines n :
  n ∈ field_file_lines i lines ->
  exists m, n = alias m /\ Py.split m <> [].
Proof.
  revert i. induction lines as [|line rest IH]; intros i; cbn [field_file_lines].
  - by intros ?%elem_of_nil.
  - destruct (String.eqb _ ""); [by apply IH|].
    destruct (_ && _); [by apply IH|].
    destruct (String.eqb_spec (Py.strip (Py.split_once comma (Py.strip line)).1) "")
      as [He|Hne]; [by apply IH|].
    intros [->|H]%elem_of_cons; [|by apply (IH (S i))].
    eexists. split; [done|]. by apply strip_has_token.
Qed.

(** The resolver raises on a name without a token only. *)
Lemma get_player_id_returns reg n :
  Py.split n <> [] -> exists r, get_player_id reg n = Py.Ret r.
Proof.
  intros Hn. unfold get_player_id.
  destruct (Store.select_eq_name reg n) as [|p l]; [|by eexists].
  destruct (list.last (Py.split n)) as [key|] eqn:Hk;
    [|by apply last_None in Hk].
  eexists. apply first_surname_match_filter, Forall_forall.
  intros p [Hc _]%list_elem_of_filter.
  by apply (candidate_has_token key n).
Qed.

(** X1.  Every name the field file gives is non-empty, has a token, is left
    unchanged by a second aliasing, and is resolved without an exception
    against any registry. *)
Theorem field_file_names_resolve :
  forall (lines : list string) (reg : list player) (n : string),
    n ∈ load_players_from_field_file lines ->
    n <> "" /\ Py.split n <> [] /\ alias n = n /\
    exists r, get_player_id reg n = Py.Ret r.
Proof.
  intros lines reg n (m & -> & Hm)%field_file_lines_names.
  assert (Ht := alias_has_token m Hm).
  split; [by apply split_nil_empty|]. split; [done|].
  split; [apply alias_stable | by apply get_player_id_returns].
Qed.

Lemma field_file_names_resolve_witness :
  "Nico Echavarria" <> "" /\ Py.split "Nico Echavarria" <> [] /\
  alias "Nico Echavarria" = "Nico Echavarria" /\
  exists r, get_player_id registry_example "Nico Echavarria" = Py.Ret r.
Proof.
  apply (field_file_names_resolve
           ["Player,Odds"; " Nicolas Echavarria , +4000"] registry_example).
  vm_compute. constructor.
Defined.

(** X2.  [get_player_id] raises exactly when the name has no token and no
    registry record carries that very name, and what it raises is
    [IndexError]. *)
Theorem get_player_id_raises_iff :
  forall (reg : list player) (n : string) (e : Py.exn),
    get_player_id reg n = Py.Raise e <->
    e = Py.IndexError /\ Py.split n = [] /\ forall p, p ∈ reg -> name p <> n.
Proof.
  intros reg n e. split.
  - intros H. destruct (Py.split n) as [|t ts] eqn:Hs.
    + unfold get_player_id in H. rewrite Hs in H.
      unfold Store.select_eq_name in H.
      destruct (filter (fun p => name p = n) reg) as [|q l] eqn:Hf; [|done].
      cbn in H. injection H as <-. split; [done|]. split; [done|].
      intros p Hp Hn.
      assert (Hin : p ∈ filter (fun p => name p = n) reg)
        by (by apply list_elem_of_filter).
      rewrite Hf in Hin. by apply elem_of_nil in Hin.
    + destruct (get_player_id_returns reg n) as [r Hr]; [by rewrite Hs|].
      by rewrite Hr in H.
  - intros (-> & Hs & Hne). unfold get_player_id.
    by rewrite select_eq_name_nil, Hs.
Qed.

(** X3.  An id [get_player_id] returns is the id of a registry record that
    either carries the very name or, when no record does, contains the last
    token of the name and has it as its own last token, letter case
    ignored. *)
Theorem get_player_id_returns_registry_id :
  forall (reg : list player) (n pid : string),
    get_player_id reg n = Py.Ret (Some pid) ->
    exists p, p ∈ reg /\ id p = pid /\
      (name p = n \/
       exists key, last_token n = Some key /\
                   contains_ci key (name p) = true /\
                   surname_is key p = true).
Proof.
  intros reg n pid H. unfold get_player_id, Store.select_eq_name in H.
  destruct (filter (fun p => name p = n) reg) as [|q l] eqn:Hf.
  - destruct (list.last (Py.split n)) as [key|] eqn:Hk; [|done].
    rewrite first_surname_match_filter in H.
    + injection H as H.
      destruct (filter _ (Store.select_ilike_name reg key)) as [|p l'] eqn:Hf2;
        [done|]. injection H as <-.
      assert (Hin : p ∈ filter (fun p => surname_is key p = true)
                           (Store.select_ilike_name reg key))
        by (rewrite Hf2; left).
      apply list_elem_of_filter in Hin as [Hs Hin].
      apply list_elem_of_filter in Hin as [Hc Hin].
      exists p. split; [done|]. split; [done|]. right. by exists key.
    + apply Forall_forall. intros p [Hc _]%list_elem_of_filter.
      by apply (candidate_has_token key n).
  - injection H as <-.
    assert (Hin : q ∈ filter (fun p => name p = n) reg) by (rewrite Hf; left).
    apply list_elem_of_filter in Hin as [Hn Hin].
    exists q. split; [done|]. split; [done|]. by left.
Qed.

Lemma get_player_id_returns_registry_id_witness :
  exists p, p ∈ registry_example /\ id p = "p1" /\
    (name p = "T. woods" \/
     exists key, last_token "T. woods" = Some key /\
                 contains_ci key (name p) = true /\
                 surname_is key p = true).
Proof.
  apply (get_player_id_returns_registry_id registry_example "T. woods" "p1").
  reflexivity.
Defined.

Lemma first_surname_match_lower k1 k2 cands :
  Py.lower k1 = Py.lower k2 ->
  first_surname_match k1 cands = first_surname_match k2 cands.
Proof.
  intros Hk. induction cands as [|p cands IH]; [done|].
  cbn [first_surname_match]. by rewrite Hk, IH.
Qed.

(** X4.  Without an exact match the first names play no part, nor does the
    letter case of the surname: two names that no registry record carries
    and whose last tokens agree up to letter case are resolved alike. *)
Theorem get_player_id_by_surname_only :
  forall (reg : list player) (n1 n2 : string),
    (forall p, p ∈ reg -> name p <> n1) ->
    (forall p, p ∈ reg -> name p <> n2) ->
    Py.lower <$> last_token n1 = Py.lower <$> last_token n2 ->
    get_player_id reg n1 = get_player_id reg n2.
Proof.
  intros reg n1 n2 H1 H2 Hk. unfold get_player_id.
  rewrite !select_eq_name_nil by done.
  unfold last_token in Hk.
  destruct (list.last (Py.split n1)) as [k1|], (list.last (Py.split n2)) as [k2|];
    try done.
  injection Hk as Hk. unfold Store.select_ilike_name. rewrite Hk.
  by apply first_surname_match_lower.
Qed.

Lemma get_player_id_by_surname_only_witness :
  get_player_id registry_example "Cheyenne Woods"
  = get_player_id registry_example "T. woods".
Proof.
  apply (get_player_id_by_surname_only registry_example "Cheyenne Woods" "T. woods").
  - intros p Hp.
    repeat (apply elem_of_cons in Hp as [->|Hp]; [by vm_compute|]).
    by apply elem_of_nil in Hp.
  - intros p Hp.
    repeat (apply elem_of_cons in Hp as [->|Hp]; [by vm_compute|]).
    by apply elem_of_nil in Hp.
  - reflexivity.
Defined.

Lemma omap_length_le {A B} (f : A -> option B) l :
  (List.length (omap f l) <= List.length l)%nat.
Proof. induction l as [|x l IH]; [done|]. csimpl. destruct (f x); cbn; lia. Qed.

Lemma omap_nil_iff {A B} (f : A -> option B) (l : list A) :
  omap f l = [] <-> forall x, x ∈ l -> f x = None.
Proof.
  split.
  - intros Hn x Hx. destruct (f x) as [y|] eqn:Hfx; [|done].
    assert (Hin : y ∈ omap f l) by (apply list_elem_of_omap; eauto).
    rewrite Hn in Hin. by apply elem_of_nil in Hin.
  - intros Hall. destruct (omap f l) as [|y l'] eqn:Ho; [done|].
    assert (Hin : y ∈ omap f l) by (rewrite Ho; left).
    apply list_elem_of_omap in Hin as (x & Hx & Hfx).
    by rewrite (Hall x Hx) in Hfx.
Qed.

Lemma tp_name_nonempty row n : tp_name row = Some n -> n <> "".
Proof.
  unfold tp_name. destruct (pga_players row) as [[m|]|]; [|done|done].
  destruct (String.eqb_spec m "") as [E|Hne]; [done|]. by intros [= <-].
Qed.

(** X5.  [load_players_from_tournament] never returns an empty list.  It
    raises exactly when the response has no attribute [error], and then
    [AttributeError]; it gives nothing exactly when the attribute is set or
    no row carries a non-empty name; a list it gives has one name for each
    row with a name, so no more names than rows, none of them empty and
    each unchanged by a second aliasing. *)
Theorem tournament_field_never_empty :
  forall (r : Response.t),
    (forall e, load_players_from_tournament r = Py.Raise e <->
               Response.error r = None /\ e = Py.AttributeError) /\
    (load_players_from_tournament r = Py.Ret None <->
     Response.error r = Some true \/
     (Response.error r = Some false /\
      forall row, row ∈ Response.data r -> tp_name row = None)) /\
    (forall players,
        load_players_from_tournament r = Py.Ret (Some players) ->
        players <> [] /\
        Response.error r = Some false /\
        players = alias <$> omap tp_name (Response.data r) /\
        (List.length players <= List.length (Response.data r))%nat /\
        forall n, n ∈ players -> n <> "" /\ alias n = n).
Proof.
  intros [err rows]. unfold load_players_from_tournament.
  cbn [Response.error Response.data].
  rewrite tournament_names_aliased.
  destruct err as [[]|].
  - split; [|split]; [|split|]; try done.
    + by intros e; split; [|intros [? _]].
    + by left.
  - pose proof (omap_nil_iff tp_name rows) as Hnil.
    destruct (omap tp_name rows) as [|n l] eqn:Ho.
    + split; [|split]; [|split|]; try done.
      * by intros e; split; [|intros [? _]].
      * intros _. right. split; [done|]. by apply Hnil.
    + split; [|split]; [|split|].
      * by intros e; split; [|intros [? _]].
      * done.
      * intros [?|[_ Hall]]; [done|]. apply Hnil in Hall. done.
      * intros players [= <-]. split; [done|]. split; [done|]. split; [done|].
        split.
        -- change (List.length (alias <$> (n :: l)) <= List.length rows)%nat.
           rewrite length_fmap, <- Ho. apply omap_length_le.
        -- intros m Hm. change (m ∈ alias <$> (n :: l)) in Hm. rewrite <- Ho in Hm.
           apply list_elem_of_fmap in Hm as (m0 & -> & Hm0).
           apply list_elem_of_omap in Hm0 as (row & _ & Hrow).
           split; [|apply alias_stable].
           apply tp_name_nonempty in Hrow.
           destruct (alias_cases m0) as [->|Ha]; [done|].
           repeat (apply elem_of_cons in Ha as [->|Ha]; [done|]).
           by apply elem_of_nil in Ha.
  - split; [|split]; [|split|]; try done.
    + intros e. split; [by intros [= <-] | by intros [_ ->]].
    + by intros [?|[? _]].
Qed.

Lemma tournament_field_never_empty_witness :
  [ "Matti Schmid" ] <> [] /\
  Response.error
    (response_of [ {| pga_players := Some None |};
                   {| pga_players := Some (Some "Matthias Schmid") |} ]) = Some false /\
  [ "Matti Schmid" ]
  = alias <$> omap tp_name
      (Response.data
         (response_of [ {| pga_players := Some None |};
                        {| pga_players := Some (Some "Matthias Schmid") |} ])) /\
  (List.length [ "Matti Schmid" ]
   <= List.length
        (Response.data
           (response_of [ {| pga_players := Some None |};
                          {| pga_players := Some (Some "Matthias Schmid") |} ])))%nat /\
  forall n, n ∈ [ "Matti Schmid" ] -> n <> "" /\ alias n = n.
Proof.
  apply (proj2 (proj2 (tournament_field_never_empty
                  (response_of [ {| pga_players := Some None |};
                                 {| pga_players := Some (Some "Matthias Schmid") |} ])))).
  reflexivity.
Defined.

(** The first comma-separated field of a line, trimmed. *)
Lemma field_file_lines_index i j lines :
  field_file_lines (S i) lines = field_file_lines (S j) lines.
Proof.
  revert i j. induction lines as [|line rest IH]; intros i j; [done|].
  cbn [field_file_lines Nat.eqb andb].
  rewrite (IH (S i) (S j)). done.
Qed.

(** X6.  A header row is dropped on the first line of the file only.  After
    a first line that is not blank every later line is read as a player,
    and a header word that follows a blank first line is read as a player
    too. *)
Theorem header_skipped_on_first_line_only :
  forall (first h : string) (rest : list string),
    let field := fun line => Py.strip (Py.split_once comma (Py.strip line)).1 in
    field h <> "" ->
    (Py.lower (field h) = "player" \/ Py.lower (field h) = "name") ->
    load_players_from_field_file (h :: rest)
      = load_players_from_field_file ("" :: rest) /\
    (Py.strip first = "" ->
     load_players_from_field_file (first :: h :: rest)
     = alias (field h) :: load_players_from_field_file (first :: rest)).
Proof.
  intros first h rest field Hne Hh. unfold load_players_from_field_file.
  assert (Hsh : Py.strip h <> "").
  { intros E. apply Hne. unfold field. by rewrite E. }
  split.
  - cbn [field_file_lines Nat.eqb andb].
    destruct (String.eqb_spec (Py.strip h) "") as [?|_]; [done|].
    fold (field h).
    replace (String.eqb (Py.lower (field h)) "player"
             || String.eqb (Py.lower (field h)) "name") with true.
    + change (Py.strip "") with "". by cbn.
    + destruct Hh as [-> | ->]; done.
  - intros Hb. cbn [field_file_lines Nat.eqb andb]. rewrite Hb. cbn [String.eqb].
    destruct (String.eqb_spec (Py.strip h) "") as [?|_]; [done|].
    fold (field h).
    destruct (String.eqb_spec (field h) "") as [?|_]; [done|].
    f_equal. apply (field_file_lines_index 1 0).
Qed.

Lemma header_skipped_on_first_line_only_witness :
  load_players_from_field_file ("Player,Odds" :: ["Tiger Woods,+500"])
    = load_players_from_field_file ("" :: ["Tiger Woods,+500"]) /\
  (Py.strip " " = "" ->
   load_players_from_field_file (" " :: "Player,Odds" :: ["Tiger Woods,+500"])
   = alias (Py.strip (Py.split_once comma (Py.strip "Player,Odds")).1)
       :: load_players_from_field_file (" " :: ["Tiger Woods,+500"])).
Proof.
  apply (header_skipped_on_first_line_only " " "Player,Odds" ["Tiger Woods,+500"]).
  - by vm_compute.
  - left. reflexivity.
Defined.

(** ** Name normalization, further *)

(** X7.  A display name without a comma comes out trimmed, and normalizing
    it once more changes nothing. *)
Theorem normalize_name_without_comma_stable :
  forall n : string,
    Py.has_char comma n = false ->
    trimmed (normalize_name n) /\
    normalize_name (normalize_name n) = normalize_name n.
Proof.
  intros n Hc. rewrite (normalize_name_plain n Hc).
  split; [apply trimmed_strip|].
  rewrite normalize_name_plain.
  - apply strip_trimmed, trimmed_strip.
  - by apply has_char_lstrip, has_char_rstrip.
Qed.

Lemma normalize_name_without_comma_stable_witness :
  trimmed (normalize_name "  Tiger  Woods ") /\
  normalize_name (normalize_name "  Tiger  Woods ") = normalize_name "  Tiger  Woods ".
Proof.
  apply (normalize_name_without_comma_stable "  Tiger  Woods "). reflexivity.
Defined.

(** X8.  A display name in which nothing but whitespace follows the first
    comma comes out with a leading space before the trimmed surname, so it
    is not trimmed. *)
Theorem normalize_name_trailing_comma :
  forall l w : string,
    Py.has_char comma l = false ->
    blank w ->
    normalize_name (l +:+ "," +:+ w) = " " +:+ Py.strip l /\
    ~ trimmed (normalize_name (l +:+ "," +:+ w)).
Proof.
  intros l w Hc Hw. rewrite (normalize_name_comma l w Hc), (strip_blank w Hw).
  split; [done|]. intros [Hl _].
  change ("" +:+ " " +:+ Py.strip l) with (String " " (Py.strip l)) in Hl.
  by apply lstrip_head in Hl.
Qed.

Lemma normalize_name_trailing_comma_witness :
  normalize_name ("Woods" +:+ "," +:+ " ") = " " +:+ Py.strip "Woods" /\
  ~ trimmed (normalize_name ("Woods" +:+ "," +:+ " ")).
Proof.
  apply (normalize_name_trailing_comma "Woods" " "); reflexivity.
Defined.

(** ** A leaderboard row without a name *)

Lemma player_loop_blank_name E i n rest s :
  Py.split n = [] ->
  (forall p, p ∈ registry E -> name p <> n) ->
  player_loop E i (n :: rest) s = (s, Some Py.IndexError).
Proof.
  intros Hn Hne. cbn [player_loop]. unfold iteration, get_player_id.
  by rewrite select_eq_name_nil, Hn.
Qed.

(** The loop over a list in two parts. *)
Lemma player_loop_app E l1 l2 :
  forall i s,
    player_loop E i (l1 ++ l2) s
    = match player_loop E i l1 s with
      | (s1, Some e) => (s1, Some e)
      | (s1, None) => player_loop E (i + List.length l1) l2 s1
      end.
Proof.
  induction l1 as [|n l1 IH]; intros i s.
  - cbn. by rewrite Nat.add_0_r.
  - cbn [app player_loop]. destruct (iteration E i n s) as [s1 [e|]]; [done|].
    rewrite IH. cbn [List.length]. by rewrite Nat.add_succ_r.
Qed.

Lemma field_names_null rows1 rows2 :
  field_names (rows1 ++ {| player_name := None |} :: rows2) = Py.Raise Py.TypeError.
Proof.
  induction rows1 as [|row rows1 IH]; [done|].
  cbn [app field_names]. rewrite IH. by destruct (player_name row).
Qed.

(** X9.  When a row of the leaderboard has a name of whitespace only (or the
    empty name) and every registry name has a token, the run over the field
    of the past-results page never reaches the summary: the players before
    that row are processed, then [IndexError] (or an earlier exception) ends
    the run, and no later player is processed.  When a row has no name,
    so that a [null] arrives, [fetch_field_from_past_results] itself raises
    [TypeError] and gives no field. *)
Theorem nameless_leaderboard_row_ends_run :
  (forall (E : env) (names1 : list string) (w : string) (names2 : list string)
          (store : Db.t),
      Py.split w = [] ->
      (forall p, p ∈ registry E -> Py.split (name p) <> []) ->
      let before := normalize_name <$> names1 in
      let s1 := player_loop E 0 before
                  {| db := store; tourn_ok := 0; skills_ok := 0; log := [] |} in
      exists players,
        fetch_field_from_past_results (Some (named <$> (names1 ++ w :: names2)))
        = Py.Ret (Some players) /\
        main E players store
        = (db s1.1, log s1.1, Uncaught (default Py.IndexError s1.2))) /\
  (forall rows1 rows2 : list lb_row,
      fetch_field_from_past_results
        (Some (rows1 ++ {| player_name := None |} :: rows2))
      = Py.Raise Py.TypeError).
Proof.
  split.
  - intros E names1 w names2 store Hw Hreg before s1.
    exists (normalize_name <$> names1 ++ w :: names2).
    split.
    { unfold fetch_field_from_past_results. rewrite field_names_named.
      by destruct names1. }
    assert (Hb := split_nil_blank _ Hw).
    assert (Hn : normalize_name w = "").
    { rewrite normalize_name_plain by (by apply blank_no_comma). by apply strip_blank. }
    rewrite fmap_app, fmap_cons, Hn. fold before.
    unfold main. rewrite player_loop_app. fold s1.
    destruct s1 as [s [e|]]; [done|].
    rewrite player_loop_blank_name; [done|done|].
    intros p Hp E0. apply (Hreg p Hp). by rewrite E0.
  - intros rows1 rows2. unfold fetch_field_from_past_results.
    rewrite field_names_null. by destruct rows1.
Qed.

Lemma nameless_leaderboard_row_ends_run_witness :
  let before := normalize_name <$> [ "Woods, Tiger" ] in
  let s1 := player_loop (env_at "2026-01-26T08:00:00") 0 before
              {| db := empty_store; tourn_ok := 0; skills_ok := 0; log := [] |} in
  exists players,
    fetch_field_from_past_results
      (Some (named <$> ([ "Woods, Tiger" ] ++ "  " :: [ "McIlroy, Rory" ])))
    = Py.Ret (Some players) /\
    main (env_at "2026-01-26T08:00:00") players empty_store
    = (db s1.1, log s1.1, Uncaught (default Py.IndexError s1.2)).
Proof.
  apply (proj1 nameless_leaderboard_row_ends_run (env_at "2026-01-26T08:00:00")
           [ "Woods, Tiger" ] "  " [ "McIlroy, Rory" ] empty_store).
  - reflexivity.
  - intros p Hp.
    repeat (apply elem_of_cons in Hp as [->|Hp]; [by vm_compute|]).
    by apply elem_of_nil in Hp.
Defined.

(** ** Round aggregator, further *)

(** What the record of a group holds, read off the rows of the group. *)
Lemma record_for_fields to_iso fl pid rows e d r :
  record_for to_iso fl pid rows (e, d) = Some r ->
  Rec.pga_player_id r = pid /\
  Rec.tournament_name r = e /\
  to_iso d = Some (Rec.tournament_date r) /\
  (forall f col, (f, col) ∈ components ->
     f r = Float.round3 fl <$> float_mean fl (valid_values col (group_of e d rows))) /\
  Rec.total_score r = Some (py_int (total_of fl Row.round_score (group_of e d rows))).
Proof.
  intros Hr. unfold record_for, record_of in Hr. cbn [agg_group] in Hr.
  cbn [Agg.date Agg.event_name Agg.total Agg.ott Agg.app Agg.arg Agg.putt
       Agg.round_score Agg.course_name Agg.fin_numeric Agg.fin_text] in Hr.
  destruct (to_iso d) as [iso|]; [|done].
  injection Hr as <-.
  cbn [Rec.pga_player_id Rec.tournament_name Rec.tournament_date Rec.total_score].
  rewrite group_rows_filtered.
  split; [done|]. split; [done|]. split; [done|]. split.
  - intros f col H. unfold components in H.
    repeat (apply elem_of_cons in H as [[= -> ->]|H];
            [cbn [Rec.strokes_gained_total Rec.strokes_gained_off_tee
                  Rec.strokes_gained_approach Rec.strokes_gained_around_green
                  Rec.strokes_gained_putting];
             rewrite mean_filtered by done; by destruct (float_mean _ _)|]).
    by apply elem_of_nil in H.
  - unfold Pd.sum. by rewrite column_unfiltered.
Qed.

Lemma key_le_fst a b : Pd.key_le a b -> String.le a.1 b.1.
Proof.
  intros [[E _]|[_ L]]%key_le_iff; [by rewrite E | done].
Qed.

Lemma group_keys_length {R} (key : R -> option (string * string)) rows :
  (List.length (Pd.group_keys key rows) <= List.length rows)%nat.
Proof.
  etrans; [apply submseteq_length, NoDup_submseteq|].
  - apply NoDup_group_keys.
  - intros k (r & Hr & Hk)%elem_of_group_keys.
    apply (proj2 (list_elem_of_omap key rows k)). eauto.
  - clear. induction rows as [|r rows IH]; [done|].
    csimpl. destruct (key r); cbn; lia.
Qed.

Lemma StronglySorted_omap {A B} (R : relation A) (S : relation B)
    (f : A -> option B) l :
  (forall x y a b, R x y -> f x = Some a -> f y = Some b -> S a b) ->
  StronglySorted R l -> StronglySorted S (omap f l).
Proof.
  intros HRS. induction 1 as [|x l Hl IH Hx]; [constructor|].
  csimpl. destruct (f x) as [a|] eqn:Hfx; [|done].
  constructor; [done|].
  apply Forall_forall. intros b (y & Hy & Hfy)%list_elem_of_omap.
  apply (HRS x y); [|done..].
  by apply (proj1 (Forall_forall _ _) Hx).
Qed.

(** X10.  The records of one call all carry the given player id, come in
    ascending order of tournament name, and are no more than the rows of
    the input. *)
Theorem records_carry_id_in_name_order :
  forall (to_iso : string -> option string) (fl : Float.ops) (rows : list Row.t) (pid : string),
    let out := process_tournament_records to_iso fl rows pid in
    Forall (fun r => Rec.pga_player_id r = pid) out /\
    StronglySorted (fun a b => String.le (Rec.tournament_name a) (Rec.tournament_name b)) out /\
    (List.length out <= List.length rows)%nat.
Proof.
  intros to_iso fl rows pid. cbn zeta. rewrite process_records_by_key.
  split; [|split].
  - apply Forall_forall. intros r ([e d] & _ & Hr)%list_elem_of_omap.
    by apply record_for_fields in Hr as (? & _).
  - apply (StronglySorted_omap Pd.key_le); [|apply sorted_group_keys].
    intros [e1 d1] [e2 d2] a b Hle Ha Hb.
    apply record_for_fields in Ha as (_ & -> & _).
    apply record_for_fields in Hb as (_ & -> & _).
    by apply key_le_fst in Hle.
  - etrans; [apply omap_length_le | apply group_keys_length].
Qed.

Lemma NoDup_fmap_omap {A B C} (f : A -> option B) (g : B -> C) l :
  (forall x y a b, x ∈ l -> y ∈ l -> f x = Some a -> f y = Some b -> g a = g b -> x = y) ->
  NoDup l -> NoDup (g <$> omap f l).
Proof.
  intros Hinj Hnd. induction Hnd as [|x l Hx Hl IH]; [constructor|].
  csimpl. destruct (f x) as [a|] eqn:Hfx.
  - csimpl. constructor.
    + intros (b & Hab & (y & Hy & Hfy)%list_elem_of_omap)%list_elem_of_fmap.
      apply Hx. rewrite (Hinj x y a b); [done|by left|by right|done..].
    + apply IH. intros x' y' a' b' Hx' Hy'. apply Hinj; by right.
  - apply IH. intros x' y' a' b' Hx' Hy'. apply Hinj; by right.
Qed.

Lemma upsert_keyed_size records tbl :
  NoDup (Db.key_of <$> records) ->
  (forall r, r ∈ records -> tbl !! Db.key_of r = None) ->
  size (Db.upsert_keyed records tbl) = (size tbl + List.length records)%nat.
Proof.
  unfold Db.upsert_keyed. revert tbl.
  induction records as [|r records IH]; intros tbl Hnd Hfresh; cbn [foldl].
  - cbn. lia.
  - apply NoDup_cons in Hnd as [Hr Hnd]. rewrite IH.
    + rewrite map_size_insert_None by (apply Hfresh; left). cbn. lia.
    + done.
    + intros r' Hr'. rewrite lookup_insert_ne.
      * apply Hfresh. by right.
      * intros E. apply Hr. rewrite E. apply list_elem_of_fmap. eauto.
Qed.

(** X11.  When no two rounds of one event carry different scraped dates
    that parse to the same day, the records of one call have pairwise
    different upsert keys, and a keyed upsert into an empty table stores as
    many rows as there are records.  Two spellings of one day break the
    premise: "Jun 1, 2024" and "Jun 01, 2024" give two records under one
    key. *)
Theorem record_keys_distinct :
  (forall (to_iso : string -> option string) (fl : Float.ops) (rows : list Row.t)
          (pid : string),
      dates_told_apart to_iso rows ->
      let out := process_tournament_records to_iso fl rows pid in
      NoDup (Db.key_of <$> out) /\
      size (Db.upsert_keyed out ∅) = List.length out) /\
  (forall fl : Float.ops,
      let out := process_tournament_records Datetime.to_iso_date fl same_day_rounds "p1" in
      List.length out = 2%nat /\ ~ NoDup (Db.key_of <$> out)).
Proof.
  split.
  2:{ intros fl. split; [by vm_compute|]. intros H. vm_compute in H.
      apply NoDup_cons in H as [H _]. apply H. left. }
  intros to_iso fl rows pid Hinj. cbn zeta.
  assert (Hnd : NoDup (Db.key_of <$> process_tournament_records to_iso fl rows pid)).
  { rewrite process_records_by_key.
    apply NoDup_fmap_omap; [|apply NoDup_group_keys].
    intros [e1 d1] [e2 d2] a b (r1 & Hr1 & Hk1)%elem_of_group_keys
           (r2 & Hr2 & Hk2)%elem_of_group_keys Ha Hb Hk.
    apply record_for_fields in Ha as (_ & Hn1 & Hd1 & _).
    apply record_for_fields in Hb as (_ & Hn2 & Hd2 & _).
    unfold Db.key_of in Hk. injection Hk as _ Hn Hd.
    rewrite Hd in Hd1.
    apply row_key_iff in Hk1 as [He1 Hdt1]. apply row_key_iff in Hk2 as [He2 Hdt2].
    assert (He : e1 = e2) by congruence.
    assert (Hdd : d1 = d2)
      by (apply (Hinj r1 r2 d1 d2 (Rec.tournament_date b) Hr1 Hr2);
          [congruence|done..]).
    by rewrite He, Hdd. }
  split; [done|].
  rewrite upsert_keyed_size; [by rewrite map_size_empty | done | done].
Qed.

Lemma record_keys_distinct_witness :
  let out := process_tournament_records Datetime.to_iso_date exact_arithmetic
               season_rounds "p1" in
  NoDup (Db.key_of <$> out) /\ size (Db.upsert_keyed out ∅) = List.length out.
Proof.
  apply (proj1 record_keys_distinct Datetime.to_iso_date exact_arithmetic
           season_rounds "p1").
  intros r1 r2 d1 d2 iso H1 H2 He Hd1 Hd2 Hi1 Hi2.
  unfold season_rounds in H1, H2.
  repeat (apply elem_of_cons in H1 as [->|H1]);
    [..|by apply elem_of_nil in H1];
    repeat (apply elem_of_cons in H2 as [->|H2]);
    try (by apply elem_of_nil in H2);
    cbn in He, Hd1, Hd2; simplify_eq; try done;
    vm_compute in Hi1, Hi2; congruence.
Defined.

Lemma elem_of_group_keys_group e d rows :
  (e, d) ∈ Pd.group_keys row_key rows <-> group_of e d rows <> [].
Proof.
  rewrite elem_of_group_keys. split.
  - intros (r & Hr & Hk) Hnil. apply row_key_iff in Hk.
    assert (Hin : r ∈ group_of e d rows) by (by apply list_elem_of_filter).
    rewrite Hnil in Hin. by apply elem_of_nil in Hin.
  - intros Hne. destruct (group_of e d rows) as [|r g] eqn:Hg; [done|].
    assert (Hin : r ∈ group_of e d rows) by (rewrite Hg; left).
    apply list_elem_of_filter in Hin as [Hk Hin].
    exists r. split; [done | by apply row_key_iff].
Qed.

Lemma omap_ext_all {A B} (f g : A -> option B) (l : list A) :
  (forall x, f x = g x) -> omap f l = omap g l.
Proof. intros H. induction l as [|x l IH]; [done|]. csimpl. by rewrite H, IH. Qed.

(** X14.  The records depend on the rounds of each group, in their order,
    and on nothing else: two inputs that have the same rounds in the same
    order in every (event name, date) group, however the groups are
    interleaved, give the same records. *)
Theorem round_order_is_immaterial :
  forall (to_iso : string -> option string) (fl : Float.ops)
         (rows rows' : list Row.t) (pid : string),
    (forall e d, group_of e d rows = group_of e d rows') ->
    process_tournament_records to_iso fl rows pid
    = process_tournament_records to_iso fl rows' pid.
Proof.
  intros to_iso fl rows rows' pid H. rewrite !process_records_by_key.
  assert (Hk : Pd.group_keys row_key rows = Pd.group_keys row_key rows').
  { apply (StronglySorted_unique Pd.key_le); [apply sorted_group_keys..|].
    apply NoDup_Permutation; [apply NoDup_group_keys..|].
    intros [e d]. by rewrite !elem_of_group_keys_group, H. }
  rewrite Hk. apply omap_ext_all. intros [e d].
  unfold record_for. by rewrite !group_rows_filtered, H.
Qed.

Lemma round_order_is_immaterial_witness :
  process_tournament_records Datetime.to_iso_date exact_arithmetic
    [ round_row "Open" "Jun 1, 2024" (Some (6 # 5)%Q) (Some 68%Q);
      round_row "Masters" "Apr 11, 2024" (Some (1 # 2)%Q) (Some 70%Q);
      round_row "Open" "Jun 1, 2024" (Some (3 # 4)%Q) (Some 69%Q) ] "p1"
  = process_tournament_records Datetime.to_iso_date exact_arithmetic
      [ round_row "Masters" "Apr 11, 2024" (Some (1 # 2)%Q) (Some 70%Q);
        round_row "Open" "Jun 1, 2024" (Some (6 # 5)%Q) (Some 68%Q);
        round_row "Open" "Jun 1, 2024" (Some (3 # 4)%Q) (Some 69%Q) ] "p1".
Proof.
  apply (round_order_is_immaterial Datetime.to_iso_date exact_arithmetic
           [ round_row "Open" "Jun 1, 2024" (Some (6 # 5)%Q) (Some 68%Q);
             round_row "Masters" "Apr 11, 2024" (Some (1 # 2)%Q) (Some 70%Q);
             round_row "Open" "Jun 1, 2024" (Some (3 # 4)%Q) (Some 69%Q) ]
           [ round_row "Masters" "Apr 11, 2024" (Some (1 # 2)%Q) (Some 70%Q);
             round_row "Open" "Jun 1, 2024" (Some (6 # 5)%Q) (Some 68%Q);
             round_row "Open" "Jun 1, 2024" (Some (3 # 4)%Q) (Some 69%Q) ] "p1").
  intros e d. unfold group_of. rewrite !filter_cons, !filter_nil.
  repeat match goal with
         | |- context [decide (in_group e d ?r)] =>
             destruct (decide (in_group e d r)) as [[? ?]|?]
         end;
    simplify_eq/=; done.
Defined.

(** ** Skill snapshot builder, further *)

Lemma process_skills_ext f fl dg skills1 skills2 now :
  skills1 <> [] -> skills2 <> [] ->
  (forall k, k ∈ skill_keys -> category k skills1 = category k skills2) ->
  process_skills f fl (Some {| Reload.dg_id := dg; Reload.break_skills := skills1 |}) now
  = process_skills f fl (Some {| Reload.dg_id := dg; Reload.break_skills := skills2 |}) now.
Proof.
  intros H1 H2 H.
  assert (Hk : forall k, bool_decide (k ∈ skill_keys) = true ->
                         category k skills1 = category k skills2).
  { intros k Hk. apply H. by apply bool_decide_eq_true in Hk. }
  unfold process_skills. cbn [Reload.break_skills Reload.dg_id].
  destruct skills1 as [|a1 l1]; [done|]. destruct skills2 as [|a2 l2]; [done|].
  rewrite !get_dict_of.
  rewrite !(Hk "driving"), !(Hk "ott_1"), !(Hk "ott_2"), !(Hk "approach"),
    !(Hk "app_1"), !(Hk "app_2"), !(Hk "app_3"), !(Hk "app_4"), !(Hk "around"),
    !(Hk "arg_1"), !(Hk "arg_2"), !(Hk "arg_3"), !(Hk "putting"), !(Hk "putt_1"),
    !(Hk "putt_2"), !(Hk "putt_3") by done.
  done.
Qed.

Lemma category_app k l1 l2 :
  category k (l1 ++ l2)
  = match category k l2 with
    | Some s => Some s
    | None => category k l1
    end.
Proof. unfold category. by rewrite filter_app, last_app. Qed.

Lemma category_cons_ne k s l : Skill.bin s <> k -> category k (s :: l) = category k l.
Proof. intros H. unfold category. by rewrite filter_cons, decide_False. Qed.

Lemma category_cons_later k s l :
  (exists s', s' ∈ l /\ Skill.bin s' = Skill.bin s) ->
  category k (s :: l) = category k l.
Proof.
  intros (s' & Hs' & Hb). destruct (decide (Skill.bin s = k)) as [<-|Hne];
    [|by apply category_cons_ne].
  unfold category. rewrite filter_cons, decide_True by done. rewrite last_cons.
  destruct (list.last (filter _ l)) as [y|] eqn:Hl; [done|].
  apply last_None in Hl.
  assert (Hin : s' ∈ filter (fun s0 => Skill.bin s0 = Skill.bin s) l)
    by (by apply list_elem_of_filter).
  rewrite Hl in Hin. by apply elem_of_nil in Hin.
Qed.

(** X15.  Of two records of the payload with the same bin only the later
    one counts: the snapshot is the same with the earlier one left out. *)
Theorem earlier_record_of_a_bin_is_dead :
  forall (f : string -> option pyfloat) (fl : Float.ops) (dg : json)
         (l1 l2 : list Skill.t) (s : Skill.t) (now : string),
    (exists s', s' ∈ l2 /\ Skill.bin s' = Skill.bin s) ->
    process_skills f fl
      (Some {| Reload.dg_id := dg; Reload.break_skills := l1 ++ s :: l2 |}) now
    = process_skills f fl
        (Some {| Reload.dg_id := dg; Reload.break_skills := l1 ++ l2 |}) now.
Proof.
  intros f fl dg l1 l2 s now Hlater.
  apply process_skills_ext.
  - by destruct l1.
  - destruct Hlater as (s' & Hs' & _). destruct l2; [by apply elem_of_nil in Hs'|].
    by destruct l1.
  - intros k _. rewrite !category_app. by rewrite category_cons_later.
Qed.

Lemma earlier_record_of_a_bin_is_dead_witness :
  process_skills Decimal.float_of_str exact_arithmetic
    (Some {| Reload.dg_id := JNum 12;
             Reload.break_skills :=
               [] ++ {| Skill.bin := "driving"; Skill.perc := JNum 1; Skill.val := JStr "9" |}
                  :: Reload.break_skills skills_without_putting |})
    "2026-01-26T08:00:00"
  = process_skills Decimal.float_of_str exact_arithmetic
      (Some {| Reload.dg_id := JNum 12;
               Reload.break_skills := [] ++ Reload.break_skills skills_without_putting |})
      "2026-01-26T08:00:00".
Proof.
  apply (earlier_record_of_a_bin_is_dead Decimal.float_of_str exact_arithmetic (JNum 12) []
           (Reload.break_skills skills_without_putting)
           {| Skill.bin := "driving"; Skill.perc := JNum 1; Skill.val := JStr "9" |}
           "2026-01-26T08:00:00").
  eexists. split; [left | reflexivity].
Defined.

(** X16.  A record whose bin is none of the sixteen category keys leaves
    the snapshot as it is, as long as it is not the only record. *)
Theorem unknown_bin_is_ignored :
  forall (f : string -> option pyfloat) (fl : Float.ops) (dg : json)
         (l1 l2 : list Skill.t) (s : Skill.t) (now : string),
    Skill.bin s ∉ skill_keys ->
    l1 ++ l2 <> [] ->
    process_skills f fl
      (Some {| Reload.dg_id := dg; Reload.break_skills := l1 ++ s :: l2 |}) now
    = process_skills f fl
        (Some {| Reload.dg_id := dg; Reload.break_skills := l1 ++ l2 |}) now.
Proof.
  intros f fl dg l1 l2 s now Hs Hne.
  apply process_skills_ext; [by destruct l1 | done |].
  intros k Hk. rewrite !category_app, category_cons_ne; [done|].
  intros E. apply Hs. by rewrite E.
Qed.

Lemma unknown_bin_is_ignored_witness :
  process_skills Decimal.float_of_str exact_arithmetic
    (Some {| Reload.dg_id := JNum 12;
             Reload.break_skills :=
               Reload.break_skills skills_without_putting
               ++ {| Skill.bin := "total"; Skill.perc := JNum 1; Skill.val := JStr "9" |}
                  :: [] |})
    "2026-01-26T08:00:00"
  = process_skills Decimal.float_of_str exact_arithmetic
      (Some {| Reload.dg_id := JNum 12;
               Reload.break_skills := Reload.break_skills skills_without_putting ++ [] |})
      "2026-01-26T08:00:00".
Proof.
  apply (unknown_bin_is_ignored Decimal.float_of_str exact_arithmetic (JNum 12)
           (Reload.break_skills skills_without_putting) []
           {| Skill.bin := "total"; Skill.perc := JNum 1; Skill.val := JStr "9" |}
           "2026-01-26T08:00:00").
  - apply (bool_decide_eq_false_1 _). by vm_compute.
  - discriminate.
Defined.

(** ** The player loop, further *)

Lemma first_surname_match_elem key cands pid :
  first_surname_match key cands = Py.Ret (Some pid) ->
  exists p, p ∈ cands /\ id p = pid.
Proof.
  induction cands as [|p cands IH]; [done|]. cbn [first_surname_match].
  destruct (list.last (Py.split (name p))) as [plast|]; [|done].
  destruct (String.eqb (Py.lower key) (Py.lower plast)).
  - intros [= <-]. exists p. split; [left | done].
  - intros (q & Hq & Hid)%IH. exists q. split; [by right | done].
Qed.

Lemma get_player_id_registered reg n pid :
  get_player_id reg n = Py.Ret (Some pid) -> registered reg pid.
Proof.
  unfold get_player_id, Store.select_eq_name, Store.select_ilike_name.
  destruct (filter (fun p => name p = n) reg) as [|q l] eqn:Hf.
  - destruct (list.last (Py.split n)) as [key|]; [|done].
    intros (p & [_ Hp]%list_elem_of_filter & Hid)%first_surname_match_elem.
    by exists p.
  - intros [= <-]. exists q. split; [|done].
    assert (Hin : q ∈ filter (fun p => name p = n) reg) by (rewrite Hf; left).
    by apply list_elem_of_filter in Hin as [_ Hin].
Qed.

Lemma records_pid to_iso fl rows pid r :
  r ∈ process_tournament_records to_iso fl rows pid -> Rec.pga_player_id r = pid.
Proof.
  rewrite process_records_by_key.
  intros ([e d] & _ & Hr)%list_elem_of_omap.
  by apply record_for_fields in Hr as (? & _).
Qed.

Lemma write_records_log E i records s :
  exists evs,
    log (write_records E i records s).1 = log s ++ evs /\
    Forall (fun ev => match ev with
                      | KeyedUpsert rs _ | PlainUpsert rs _ => rs = records
                      | SkillUpdate _ _ _ => False
                      end) evs.
Proof.
  unfold write_records. destruct records as [|r records].
  - exists []. by rewrite app_nil_r.
  - destruct (keyed_error E i) as [msg|].
    + destruct (Py.contains "on_conflict" (Py.lower msg)).
      * destruct (plain_error E i) as [msg2|]; eexists; cbn;
          (split; [by rewrite <- app_assoc | by repeat constructor]).
      * eexists. cbn. split; [done | by repeat constructor].
    + eexists. cbn. split; [done | by repeat constructor].
Qed.

Lemma write_skills_log E i pid sk s :
  exists evs,
    log (write_skills E i pid sk s).1 = log s ++ evs /\
    Forall (fun ev => match ev with
                      | SkillUpdate p _ _ => p = pid
                      | _ => False
                      end) evs.
Proof.
  unfold write_skills. destruct sk as [x|].
  - destruct (update_error E i); eexists; cbn;
      (split; [done | by repeat constructor]).
  - exists []. by rewrite app_nil_r.
Qed.

Lemma iteration_log_registered E i n s :
  Forall (event_registered (registry E)) (log s) ->
  Forall (event_registered (registry E)) (log (iteration E i n s).1).
Proof.
  intros Hs. unfold iteration.
  destruct (get_player_id (registry E) n) as [[pid|]|e] eqn:Hid; [|done..].
  destruct (String.eqb pid ""); [done|].
  destruct (scrape_player E n) as [data|]; [|done].
  apply get_player_id_registered in Hid.
  set (records := process_tournament_records _ _ _ _).
  destruct (write_records_log E i records s) as (evs & Hl & Hevs).
  assert (H1 : Forall (event_registered (registry E))
                 (log (write_records E i records s).1)).
  { rewrite Hl. apply Forall_app. split; [done|].
    eapply Forall_impl; [exact Hevs|].
    intros [rs o|rs o|p sk o] Hev; try done; subst rs; cbn;
      intros r Hr; by rewrite (records_pid _ _ _ _ _ Hr). }
  destruct (write_records E i records s) as [s1 [e|]]; [done|].
  cbn [fst] in H1.
  destruct (write_skills_log E i pid
              (process_skills (float_of_str E) (float_ops E) (reload_data data)
                 (utcnow E i)) s1)
    as (evs2 & Hl2 & Hevs2).
  rewrite Hl2. apply Forall_app. split; [done|].
  eapply Forall_impl; [exact Hevs2|].
  intros [rs o|rs o|p sk o] Hev; try done. by subst p.
Qed.

Lemma player_loop_log_registered E players :
  forall i s,
    Forall (event_registered (registry E)) (log s) ->
    Forall (event_registered (registry E)) (log (player_loop E i players s).1).
Proof.
  induction players as [|n rest IH]; intros i s Hs; [done|].
  cbn [player_loop].
  pose proof (iteration_log_registered E i n s Hs) as H1.
  destruct (iteration E i n s) as [s1 [e|]]; [done|]. by apply IH.
Qed.

(** X17.  Whatever the store and the fetches do, every write a run sends
    concerns a registry record: the rows of each upsert carry the id of a
    record of the registry, and so does each skills update. *)
Theorem writes_concern_registry_players :
  forall (E : env) (players : list string) (store : Db.t),
    Forall (event_registered (registry E)) (main E players store).1.2.
Proof.
  intros E players store. unfold main.
  pose proof (player_loop_log_registered E players 0
                {| db := store; tourn_ok := 0; skills_ok := 0; log := [] |}) as H.
  destruct (player_loop E 0 players _) as [s [e|]]; apply H; constructor.
Qed.

Lemma count_snoc f l ev :
  count f (l ++ [ev]) = (count f l + if f ev then 1 else 0)%nat.
Proof.
  unfold count. rewrite List.filter_app, List.length_app. cbn.
  by destruct (f ev).
Qed.

Lemma iteration_counted E i n s m :
  counted m s -> counted (S m) (iteration E i n s).1.
Proof.
  unfold counted, iteration, write_records, write_skills.
  intros (H1 & H2 & H3 & H4 & H5).
  repeat case_match; simplify_eq/=; rewrite ?count_snoc; cbn; lia.
Qed.

Lemma player_loop_counted E players :
  forall i s m,
    counted m s -> counted (m + List.length players) (player_loop E i players s).1.
Proof.
  induction players as [|n rest IH]; intros i s m Hs.
  - cbn. by rewrite Nat.add_0_r.
  - cbn [player_loop List.length].
    pose proof (iteration_counted E i n s m Hs) as H1.
    destruct (iteration E i n s) as [s1 [e|]].
    + cbn in *. unfold counted in *. lia.
    + rewrite Nat.add_succ_r. by apply (IH (S i) s1 (S m)).
Qed.

(** X18.  In the summary a run prints, the count of refreshed skill
    profiles is exactly the number of skills updates the store accepted; the
    count of updated tournament records is at least the number of upserts
    the store accepted and at most the number of keyed upserts sent; and
    neither count exceeds the number of players. *)
Theorem summary_counts_against_log :
  forall (E : env) (players : list string) (store store' : Db.t)
         (sent : list event) (t k : nat),
    main E players store = (store', sent, Summary t k) ->
    k = count accepted_update sent /\
    (count accepted_upsert sent <= t)%nat /\
    (t <= count keyed_upsert sent)%nat /\
    (t <= List.length players)%nat /\
    (k <= List.length players)%nat.
Proof.
  intros E players store store' sent t k H. unfold main in H.
  pose proof (player_loop_counted E players 0
                {| db := store; tourn_ok := 0; skills_ok := 0; log := [] |} 0) as Hc.
  destruct (player_loop E 0 players _) as [s [e|]]; [done|].
  injection H as _ <- <- <-.
  destruct Hc as (H1 & H2 & H3 & H4 & H5).
  { unfold counted. cbn. lia. }
  cbn in *. lia.
Qed.

Lemma summary_counts_against_log_witness :
  0%nat = count accepted_update [KeyedUpsert [open_record_of "p1"] None] /\
  (count accepted_upsert [KeyedUpsert [open_record_of "p1"] None] <= 1)%nat /\
  (1 <= count keyed_upsert [KeyedUpsert [open_record_of "p1"] None])%nat /\
  (1 <= List.length ["Tiger Woods"])%nat /\
  (0 <= List.length ["Tiger Woods"])%nat.
Proof.
  apply (summary_counts_against_log
           (env_with (fun _ => None) (fun _ => None)) ["Tiger Woods"] empty_store
           (store_after (env_with (fun _ => None) (fun _ => None))
              ["Tiger Woods"] empty_store)).
  by vm_compute.
Defined.

Lemma iteration_skipped E i n s :
  get_player_id (registry E) n = Py.Ret None \/
  (exists r, get_player_id (registry E) n = Py.Ret r) /\ scrape_player E n = None ->
  iteration E i n s = (s, None).
Proof.
  unfold iteration. intros [-> | [[r ->] Hs]]; [done|].
  destruct r as [pid|]; [|done]. rewrite Hs. by destruct (String.eqb pid "").
Qed.

(** X19.  Players that are not in the registry, and players for whom the
    fetch gives nothing, cause no write and are not counted: a run over such
    players only leaves the store as it was and prints two zeros. *)
Theorem unknown_players_write_nothing :
  forall (E : env) (players : list string) (store : Db.t),
    (forall n, n ∈ players ->
       get_player_id (registry E) n = Py.Ret None \/
       (exists r, get_player_id (registry E) n = Py.Ret r) /\
       scrape_player E n = None) ->
    main E players store = (store, [], Summary 0 0).
Proof.
  intros E players store H. unfold main.
  assert (Hl : forall i s, player_loop E i players s = (s, None)).
  { induction players as [|n rest IH]; intros i s; [done|].
    cbn [player_loop]. rewrite iteration_skipped by (apply H; left).
    apply IH. intros m Hm. apply H. by right. }
  rewrite Hl. by destruct store.
Qed.

Lemma unknown_players_write_nothing_witness :
  main (env_at "2026-01-26T08:00:00") ["Jack Nicklaus"; "Arnold Palmer"] empty_store
  = (empty_store, [], Summary 0 0).
Proof.
  apply (unknown_players_write_nothing (env_at "2026-01-26T08:00:00")
           ["Jack Nicklaus"; "Arnold Palmer"] empty_store).
  intros n Hn.
  repeat (apply elem_of_cons in Hn as [->|Hn]; [left; reflexivity|]).
  by apply elem_of_nil in Hn.
Defined.

Lemma upsert_keyed_other records tbl k :
  (forall r, r ∈ records -> Db.key_of r <> k) ->
  Db.upsert_keyed records tbl !! k = tbl !! k.
Proof.
  unfold Db.upsert_keyed. revert tbl.
  induction records as [|r records IH]; intros tbl H; [done|].
  cbn [foldl]. rewrite IH.
  - apply lookup_insert_ne, H. left.
  - intros r' Hr'. apply H. by right.
Qed.

Lemma upsert_keyed_keeps records tbl k :
  is_Some (tbl !! k) -> is_Some (Db.upsert_keyed records tbl !! k).
Proof.
  unfold Db.upsert_keyed. revert tbl.
  induction records as [|r records IH]; intros tbl H; [done|].
  cbn [foldl]. apply IH. rewrite lookup_insert. by case_decide.
Qed.

Lemma iteration_preserves E i n d s :
  keyed_error E i = None ->
  preserves (registry E) d s -> preserves (registry E) d (iteration E i n s).1.
Proof.
  intros Hk Hs. unfold iteration.
  destruct (get_player_id (registry E) n) as [[pid|]|e] eqn:Hid; [|done..].
  destruct (String.eqb pid ""); [done|].
  destruct (scrape_player E n) as [data|]; [|done].
  apply get_player_id_registered in Hid.
  set (records := process_tournament_records _ _ _ _).
  assert (Hrec : forall r, r ∈ records -> Rec.pga_player_id r = pid).
  { intros r Hr. by apply records_pid in Hr. }
  assert (H1 : preserves (registry E) d (write_records E i records s).1 /\
               (write_records E i records s).2 = None).
  { unfold write_records. destruct records as [|r0 records']; [done|].
    rewrite Hk. split; [|done].
    destruct Hs as (A & B & C & D). split; [|split; [|split]]; cbn.
    - intros k Hsome.
      apply (upsert_keyed_keeps (r0 :: records') (Db.results (db s)) k). by apply A.
    - intros k Hn.
      change (Db.upsert_keyed (r0 :: records') (Db.results (db s)) !! k
              = Db.results d !! k).
      rewrite upsert_keyed_other; [by apply B|].
      intros r Hr E0. apply Hn. rewrite <- E0. cbn. by rewrite (Hrec r Hr).
    - done.
    - done. }
  destruct H1 as [H1 He].
  destruct (write_records E i records s) as [s1 e1]. cbn in H1, He. subst e1.
  unfold write_skills.
  destruct (process_skills _ _ _ _) as [sk|]; [|done].
  destruct (update_error E i); [done|].
  destruct H1 as (A & B & C & D). split; [|split; [|split]]; cbn; try done.
  - intros p Hsome. unfold Db.update_skills. rewrite lookup_insert.
    case_decide; [done | by apply C].
  - intros p Hn. unfold Db.update_skills. rewrite lookup_insert_ne; [by apply D|].
    by intros ->.
Qed.

Lemma player_loop_preserves E players d :
  (forall i, keyed_error E i = None) ->
  forall i s,
    preserves (registry E) d s ->
    preserves (registry E) d (player_loop E i players s).1.
Proof.
  intros Hk. induction players as [|n rest IH]; intros i s Hs; [done|].
  cbn [player_loop].
  pose proof (iteration_preserves E i n d s (Hk i) Hs) as H1.
  destruct (iteration E i n s) as [s1 [e|]]; [done|]. by apply IH.
Qed.

(** X20.  When no keyed upsert fails, a run removes no row and no snapshot
    from the store, and leaves untouched every row and every snapshot whose
    player id belongs to no registry record. *)
Theorem run_keeps_rows_of_others :
  forall (E : env) (players : list string) (store : Db.t),
    (forall i, keyed_error E i = None) ->
    let store' := store_after E players store in
    (forall k, is_Some (Db.results store !! k) -> is_Some (Db.results store' !! k)) /\
    (forall k, ~ registered (registry E) k.1.1 ->
               Db.results store' !! k = Db.results store !! k) /\
    (forall pid, is_Some (Db.profiles store !! pid) ->
                 is_Some (Db.profiles store' !! pid)) /\
    (forall pid, ~ registered (registry E) pid ->
                 Db.profiles store' !! pid = Db.profiles store !! pid).
Proof.
  intros E players store Hk. cbn zeta. rewrite store_after_loop.
  apply (player_loop_preserves E players store Hk 0
           {| db := store; tourn_ok := 0; skills_ok := 0; log := [] |}).
  by repeat split.
Qed.

Lemma run_keeps_rows_of_others_witness :
  let E := env_at "2026-01-26T08:00:00" in
  let store' := store_after E ["Tiger Woods"] empty_store in
  (forall k, is_Some (Db.results empty_store !! k) -> is_Some (Db.results store' !! k)) /\
  (forall k, ~ registered (registry E) k.1.1 ->
             Db.results store' !! k = Db.results empty_store !! k) /\
  (forall pid, is_Some (Db.profiles empty_store !! pid) ->
               is_Some (Db.profiles store' !! pid)) /\
  (forall pid, ~ registered (registry E) pid ->
               Db.profiles store' !! pid = Db.profiles empty_store !! pid).
Proof.
  apply (run_keeps_rows_of_others (env_at "2026-01-26T08:00:00") ["Tiger Woods"]
           empty_store).
  intros i. reflexivity.
Defined.

(** ** The most recent tournament *)

Lemma ltb_false_le a b : String.ltb a b = false <-> String.le b a.
Proof.
  unfold String.le, String.ltb, String.leb. rewrite (String.compare_antisym b a).
  destruct (String.compare a b); cbn; split; done.
Qed.

Lemma ltb_true_not_le a b : String.ltb a b = true <-> ~ String.le b a.
Proof.
  rewrite <- ltb_false_le. by destruct (String.ltb a b).
Qed.

Lemma sort_by_date_desc_cons a l :
  sort_by_date_desc (a :: l) = insert_by_date a (sort_by_date_desc l).
Proof. done. Qed.

Lemma insert_by_date_perm x l : insert_by_date x l ≡ₚ x :: l.
Proof.
  induction l as [|y l IH]; [done|]. cbn [insert_by_date].
  destruct (String.ltb x.2 y.2); [|done].
  rewrite IH. apply perm_swap.
Qed.

Lemma sort_by_date_desc_perm l : sort_by_date_desc l ≡ₚ l.
Proof.
  induction l as [|x l IH]; [done|].
  by rewrite sort_by_date_desc_cons, insert_by_date_perm, IH.
Qed.

(** The head of the sorted list is the first element of the latest date. *)
Lemma sort_by_date_desc_head l :
  l <> [] ->
  exists x l1 l2,
    head (sort_by_date_desc l) = Some x /\
    l = l1 ++ x :: l2 /\
    (forall y, y ∈ l1 -> ~ String.le x.2 y.2) /\
    (forall y, y ∈ l2 -> String.le y.2 x.2).
Proof.
  induction l as [|a l IH]; [done|]. intros _.
  rewrite sort_by_date_desc_cons.
  destruct l as [|b l'].
  { exists a, [], []. repeat split; intros y Hy; by apply elem_of_nil in Hy. }
  destruct IH as (x & l1 & l2 & Hh & Hl & H1 & H2); [done|].
  destruct (sort_by_date_desc (b :: l')) as [|x' t] eqn:Hs; [done|].
  cbn in Hh. injection Hh as ->.
  cbn [insert_by_date]. destruct (String.ltb a.2 x.2) eqn:Hax.
  - exists x, (a :: l1), l2. split; [done|]. split; [by rewrite Hl|].
    split; [|done].
    intros y [->|Hy]%elem_of_cons; [by apply ltb_true_not_le | by apply H1].
  - exists a, [], (b :: l'). split; [done|]. split; [done|].
    split; [intros y Hy; by apply elem_of_nil in Hy|].
    apply ltb_false_le in Hax.
    intros y Hy. rewrite Hl in Hy. etrans; [|exact Hax].
    apply elem_of_app in Hy as [Hy|[->|Hy]%elem_of_cons].
    + destruct (total String.le y.2 x.2) as [?|Hc]; [done|]. by destruct (H1 y Hy).
    + done.
    + by apply H2.
Qed.

Lemma candidates_from_elem seen matches c :
  c ∈ candidates_from seen matches ->
  (2024 <= c.2)%Z /\
  exists m, m ∈ matches /\ c = (int_of_digits m.1, int_of_digits m.2).
Proof.
  revert seen. induction matches as [|[e y] rest IH]; intros seen H.
  - by apply elem_of_nil in H.
  - cbn [candidates_from] in H.
    destruct ((2024 <=? int_of_digits y)%Z && negb (bool_decide ((e, y) ∈ seen)))
      eqn:Hc.
    + apply andb_true_iff in Hc as [Hy _]. apply Z.leb_le in Hy.
      apply elem_of_cons in H as [->|H].
      * split; [done|]. exists (e, y). split; [left | done].
      * destruct (IH _ H) as (? & m & Hm & ?). split; [done|].
        exists m. split; [by right | done].
    + destruct (IH _ H) as (? & m & Hm & ?). split; [done|].
      exists m. split; [by right | done].
Qed.

Lemma with_dates_of_elem page_date cands x :
  x ∈ with_dates_of page_date cands <->
  (x.1.1, x.1.2) ∈ take 15 cands /\ page_date x.1.1 x.1.2 = Some x.2 /\ x.2 <> "".
Proof.
  unfold with_dates_of. rewrite list_elem_of_omap. split.
  - intros ([e y] & Hc & Hx). cbn in Hx.
    destruct (page_date e y) as [d|] eqn:Hd; [|done].
    destruct (String.eqb_spec d "") as [|Hne]; [done|].
    injection Hx as <-. by cbn.
  - intros (Hc & Hd & Hne). exists (x.1.1, x.1.2). split; [done|]. cbn.
    rewrite Hd. destruct (String.eqb_spec x.2 "") as [|_]; [done|].
    by destruct x as [[e y] d].
Qed.

(** X21.  [get_latest_pga_tournament] gives nothing exactly when none of
    the first fifteen candidates of the page has a date, a missing or empty
    date counting as none. *)
Theorem no_latest_tournament_iff :
  forall (html : string) (page_date : Z -> Z -> option string),
    get_latest_pga_tournament html page_date = None <->
    forall c, c ∈ take 15 (candidates_from ∅ (Re.findall html)) ->
              page_date c.1 c.2 = None \/ page_date c.1 c.2 = Some "".
Proof.
  intros html page_date. unfold get_latest_pga_tournament.
  set (cands := candidates_from ∅ (Re.findall html)).
  split.
  - intros H [e y] Hc. cbn.
    destruct (page_date e y) as [d|] eqn:Hd; [|by left].
    destruct (String.eqb_spec d "") as [->|Hne]; [by right|].
    assert (Hin : (e, y, d) ∈ with_dates_of page_date cands)
      by (by apply with_dates_of_elem).
    rewrite <- sort_by_date_desc_perm in Hin.
    destruct (sort_by_date_desc _) as [|[[e' y'] d'] t]; [|done].
    by apply elem_of_nil in Hin.
  - intros H.
    destruct (sort_by_date_desc (with_dates_of page_date cands))
      as [|[[e y] d] t] eqn:Hs; [done|].
    assert (Hin : (e, y, d) ∈ with_dates_of page_date cands).
    { rewrite <- sort_by_date_desc_perm, Hs. left. }
    apply with_dates_of_elem in Hin as (Hc & Hd & Hne). cbn in *.
    destruct (H (e, y) Hc) as [H'|H']; cbn in H'; congruence.
Qed.

(** X22.  The tournament [get_latest_pga_tournament] gives is one of the
    first fifteen candidates of the page, of a year from 2024 on, with a
    date on its page; no dated candidate among those fifteen has a later
    date, and every dated candidate before it in page order has a strictly
    earlier one. *)
Theorem latest_tournament_is_latest :
  forall (html : string) (page_date : Z -> Z -> option string) (e y : Z),
    get_latest_pga_tournament html page_date = Some (e, y) ->
    let dated := with_dates_of page_date (candidates_from ∅ (Re.findall html)) in
    exists d l1 l2,
      dated = l1 ++ (e, y, d) :: l2 /\
      (e, y) ∈ take 15 (candidates_from ∅ (Re.findall html)) /\
      (2024 <= y)%Z /\
      page_date e y = Some d /\ d <> "" /\
      (forall x, x ∈ dated -> String.le x.2 d) /\
      (forall x, x ∈ l1 -> ~ String.le d x.2).
Proof.
  intros html page_date e y H. cbn zeta.
  unfold get_latest_pga_tournament in H.
  set (cands := candidates_from ∅ (Re.findall html)) in *.
  destruct (with_dates_of page_date cands) as [|x0 l0] eqn:Hw; [done|].
  destruct (sort_by_date_desc_head (x0 :: l0)) as (x & l1 & l2 & Hh & Hl & H1 & H2);
    [done|].
  destruct (sort_by_date_desc (x0 :: l0)) as [|[[e' y'] d'] t]; [done|].
  injection H as -> ->. cbn in Hh. injection Hh as <-.
  assert (Hin : (e, y, d') ∈ with_dates_of page_date cands).
  { rewrite Hw, Hl. apply elem_of_app. right. left. }
  apply with_dates_of_elem in Hin as (Hc & Hd & Hne). cbn in Hc, Hd, Hne.
  exists d', l1, l2. split; [done|]. split; [done|]. split.
  { apply (subseteq_take 15 cands) in Hc.
    by apply candidates_from_elem in Hc as [Hy _]. }
  split; [done|]. split; [done|]. split; [|exact H1].
  intros x Hx. rewrite Hl in Hx.
  apply elem_of_app in Hx as [Hx|[->|Hx]%elem_of_cons].
  - destruct (total String.le x.2 d') as [?|Hc']; [done|]. by destruct (H1 x Hx).
  - done.
  - by apply H2.
Qed.

Lemma latest_tournament_is_latest_witness :
  let html := "<a href='/past-results/pga-tour/4/2026'>Farmers</a>
<a href='/past-results/pga-tour/2/2026'>Amex</a>
<a href='/past-results/pga-tour/9/2023'>old</a>" in
  let page_date := fun e y : Z =>
    if (e =? 4)%Z then Some "2026-01-25"
    else if (e =? 2)%Z then Some "2026-01-18" else None in
  let dated := with_dates_of page_date (candidates_from ∅ (Re.findall html)) in
  exists d l1 l2,
    dated = l1 ++ (4%Z, 2026%Z, d) :: l2 /\
    (4%Z, 2026%Z) ∈ take 15 (candidates_from ∅ (Re.findall html)) /\
    (2024 <= 2026)%Z /\
    page_date 4%Z 2026%Z = Some d /\ d <> "" /\
    (forall x, x ∈ dated -> String.le x.2 d) /\
    (forall x, x ∈ l1 -> ~ String.le d x.2).
Proof.
  apply (latest_tournament_is_latest
           "<a href='/past-results/pga-tour/4/2026'>Farmers</a>
<a href='/past-results/pga-tour/2/2026'>Amex</a>
<a href='/past-results/pga-tour/9/2023'>old</a>"
           (fun e y : Z =>
              if (e =? 4)%Z then Some "2026-01-25"
              else if (e =? 2)%Z then Some "2026-01-18" else None)).
  by vm_compute.
Defined.

Lemma take_digits_all s : Decimal.all_digits (Re.take_digits s).1 = true.
Proof.
  induction s as [|c s IH]; [done|]. cbn [Re.take_digits].
  destruct (Datetime.is_digit c) eqn:Hc; [|done].
  destruct (Re.take_digits s) as [ds rest]. cbn in *. by rewrite Hc, IH.
Qed.

Lemma match_here_shape s e y len :
  Re.match_here s = Some (e, y, len) ->
  e <> "" /\ Decimal.all_digits e = true /\
  Decimal.all_digits y = true /\ String.length y = 4%nat.
Proof.
  unfold Re.match_here.
  destruct (Re.strip_prefix _ s) as [rest|]; [|done]. cbn [mbind option_bind].
  pose proof (take_digits_all rest) as Hd.
  destruct (Re.take_digits rest) as [e0 rest0]. cbn in Hd.
  destruct (String.eqb_spec e0 "") as [|Hne]; [done|].
  destruct rest0 as [|c0 rest1]; [done|].
  destruct (Ascii.eqb_spec c0 "/"%char) as [->|Hc0].
  2:{ intros H. exfalso.
      destruct c0 as [[] [] [] [] [] [] [] []]; done. }
  destruct rest1 as [|a [|b [|c [|d r]]]]; try done.
  destruct (Datetime.is_digit a && Datetime.is_digit b &&
            Datetime.is_digit c && Datetime.is_digit d) eqn:Hy; [|done].
  intros [= <- <- _]. repeat split; try done.
  cbn [Decimal.all_digits]. by rewrite andb_true_r, !andb_assoc.
Qed.

Lemma findall_from_shape k s e y :
  (e, y) ∈ Re.findall_from k s ->
  e <> "" /\ Decimal.all_digits e = true /\
  Decimal.all_digits y = true /\ String.length y = 4%nat.
Proof.
  revert k. induction s as [|c s IH]; intros k; cbn [Re.findall_from].
  - by intros ?%elem_of_nil.
  - destruct k as [|k]; [|by apply IH].
    destruct (Re.match_here (String c s)) as [[[e0 y0] len]|] eqn:Hm; [|by apply IH].
    intros [[= -> ->]|H]%elem_of_cons; [by apply match_here_shape in Hm | by eapply IH].
Qed.

Lemma digit_bounds c :
  Datetime.is_digit c = true -> (0 <= Datetime.digit c <= 9)%Z.
Proof.
  unfold Datetime.is_digit, Datetime.digit.
  intros [H1 H2]%andb_true_iff.
  apply Nat.leb_le in H1, H2. lia.
Qed.

Lemma int_of_digits_go_bounds s :
  Decimal.all_digits s = true ->
  forall acc : Z,
    (0 <= acc)%Z ->
    let r := (fix go (acc : Z) (s : string) : Z :=
                match s with
                | EmptyString => acc
                | String c s' => go (10 * acc + Datetime.digit c)%Z s'
                end) acc s in
    (acc * 10 ^ Z.of_nat (String.length s) <= r)%Z /\
    (r < (acc + 1) * 10 ^ Z.of_nat (String.length s))%Z.
Proof.
  induction s as [|c s IH]; intros Hs acc Hacc.
  - cbn. lia.
  - cbn [Decimal.all_digits] in Hs. apply andb_true_iff in Hs as [Hc Hs].
    apply digit_bounds in Hc. cbn zeta.
    destruct (IH Hs (10 * acc + Datetime.digit c)%Z) as [H1 H2]; [lia|].
    cbn zeta in H1, H2. cbn [String.length].
    rewrite Nat2Z.inj_succ, Z.pow_succ_r by lia.
    split; nia.
Qed.

Lemma int_of_digits_bounds s :
  Decimal.all_digits s = true ->
  (0 <= int_of_digits s < 10 ^ Z.of_nat (String.length s))%Z.
Proof.
  intros Hs. destruct (int_of_digits_go_bounds s Hs 0%Z) as [H1 H2]; [lia|].
  unfold int_of_digits. cbn zeta in H1, H2. lia.
Qed.

(** X23.  Every link the page scan finds has an event group of one or more
    digits and a year group of exactly four, so every candidate has an
    event id that is not negative and a year from 2024 to 9999. *)
Theorem candidates_are_well_formed :
  forall (html : string),
    (forall e y, (e, y) ∈ Re.findall html ->
       e <> "" /\ Decimal.all_digits e = true /\
       Decimal.all_digits y = true /\ String.length y = 4%nat) /\
    (forall c, c ∈ candidates_from ∅ (Re.findall html) ->
       (0 <= c.1)%Z /\ (2024 <= c.2 <= 9999)%Z).
Proof.
  intros html. split.
  - intros e y. apply findall_from_shape.
  - intros c (Hy & [e y] & Hm & ->)%candidates_from_elem.
    apply findall_from_shape in Hm as (_ & He & Hyd & Hlen). cbn [fst snd] in *.
    pose proof (int_of_digits_bounds e He) as H1.
    pose proof (int_of_digits_bounds y Hyd) as H2.
    rewrite Hlen in H2. change (10 ^ Z.of_nat 4)%Z with 10000%Z in H2. lia.
Qed.

Lemma or_else_nonempty x y : y <> "" -> or_else x y <> "".
Proof.
  intros Hy. unfold or_else. destruct x as [s|]; [|done].
  by destruct (String.eqb_spec s "").
Qed.

(** X24.  The tournament of the past-results page always has a name that is
    not empty, whatever the page leaves out, and an empty list of info
    objects is read like a missing one. *)
Theorem tournament_name_never_empty :
  forall (v : info_value) (event_id year : Z),
    (tournament_of v event_id year).1 <> "" /\
    tournament_of (InfoList []) event_id year = tournament_of NoInfo event_id year /\
    tournament_of NoInfo event_id year
    = ("Event " +:+ pretty event_id, pretty year +:+ "-01-01").
Proof.
  intros v event_id year. split; [|done].
  unfold tournament_of. cbn [fst]. by repeat apply or_else_nonempty.
Qed.

Lemma omap_filter_is_Some {A B} (f : A -> option B) (l : list A) :
  omap f (filter (fun x => is_Some (f x)) l) = omap f l.
Proof.
  induction l as [|x l IH]; [done|]. rewrite filter_cons.
  destruct (f x) as [y|] eqn:Hf.
  - rewrite decide_True by done. csimpl. by rewrite Hf, IH.
  - rewrite decide_False by (by intros [? ?]). csimpl. by rewrite Hf.
Qed.

(** X25.  Rounds without an event name or without a date take no part: the
    records are those of the input with these rounds left out. *)
Theorem keyless_rounds_are_ignored :
  forall (to_iso : string -> option string) (fl : Float.ops) (rows : list Row.t) (pid : string),
    process_tournament_records to_iso fl rows pid
    = process_tournament_records to_iso fl
        (filter (fun r => is_Some (Row.event_name r) /\ is_Some (Row.date r)) rows) pid.
Proof.
  intros to_iso fl rows pid.
  rewrite (list_filter_iff _ (fun r => is_Some (row_key r))).
  2:{ intros r. unfold row_key.
      destruct (Row.event_name r), (Row.date r); split;
        (intros [[? ?] [? ?]] || intros [? ?]); done. }
  rewrite !process_records_by_key. unfold Pd.group_keys.
  rewrite omap_filter_is_Some.
  apply list_omap_ext, Forall2_same_length_lookup_2; [done|].
  intros i k k' Hk Hk'. simplify_eq. unfold record_for. do 2 f_equal.
  assert (Hf : filter_sentinels <$> filter (fun r => is_Some (row_key r)) rows
               = filter (fun r => is_Some (row_key r)) (filter_sentinels <$> rows)).
  { symmetry. by apply filter_fmap_iff. }
  rewrite Hf. f_equal. unfold Pd.group_rows. rewrite list_filter_filter.
  apply list_filter_iff. intros r. split; [intros H | by intros [? _]].
  split; [done | by rewrite H].
Qed.
